(** * RTT viewer: the asynchronous log pipeline of [rtt_python_gui.py]

    A shallow embedding of the queue-handling code of [RTTViewer]:
    - [Drain]: [_process_display_output_queue], the bounded drain of the
      display output queue that feeds the log view;
    - [Worker]: [_log_processing_thread], the loop that turns ingestion
      events into display updates;
    - [Gui]: the time gate of [run] that decides when the drain is called;
    - [Config]: [_update_mcu_history] and [_load_config].

    Python's [queue.Queue] is a FIFO: a list whose head is the oldest item,
    [put] appends at the end, [get] removes the head. *)

From Stdlib Require Import PrimFloat Uint63.
From stdpp Require Import base option list strings gmap.

Set Default Proof Using "Type".
Open Scope string_scope.
Open Scope list_scope.
Open Scope nat_scope.

(** ** Python exceptions and the error monad of the embedding *)

Module Py.

(** The exceptions the modelled code can meet.  All of them are subclasses
    of Python's [Exception]. *)
Inductive exn : Type :=
| Empty                          (* queue.Empty *)
| KeyError (k : string)          (* d[k] on a missing key *)
| OSError (msg : string)         (* open(): missing or unreadable file *)
| JSONDecodeError (msg : string) (* json.load(): invalid JSON *)
| UnicodeDecodeError             (* json.load(): undecodable bytes *)
| RecursionError.                (* json.load(): nesting too deep *)

Definition isinstance_Exception (e : exn) : bool :=
  match e with
  | Empty | KeyError _ | OSError _ | JSONDecodeError _
  | UnicodeDecodeError | RecursionError => true
  end.

(** [inl e]: the exception [e] propagates; [inr a]: normal completion. *)
Definition M (A : Type) : Type := exn + A.

Definition ret {A} (a : A) : M A := inr a.
Definition raise {A} (e : exn) : M A := inl e.
Definition bind {A B} (m : M A) (k : A → M B) : M B :=
  match m with
  | inl e => inl e
  | inr a => k a
  end.

(** [try: body except: handler]; a handler answers [None] for an exception
    its [except] clause does not match. *)
Definition try_except {A} (body : M A) (handler : exn → option (M A)) : M A :=
  match body with
  | inl e => match handler e with
             | Some h => h
             | None => inl e
             end
  | inr a => inr a
  end.

End Py.

Notation "'let!' x ':=' m 'in' k" := (Py.bind m (λ x, k))
  (at level 10, x pattern, m at level 100, k at level 200, only parsing).

(** ** The drain of the display output queue *)

Module Drain.

(** One entry of [highlighted_text_list]: a run of text and whether it is
    highlighted. *)
Definition segment : Type := string * bool.

(** The [update_info] dict the log handler produces and the log view
    consumes. *)
Record batch : Type := Batch {
  highlighted_text_list : list segment;
  append : bool
}.

(** [queue.Queue.empty] and [queue.Queue.get_nowait] ([None]: queue.Empty). *)
Definition empty (q : list batch) : bool :=
  match q with
  | [] => true
  | _ :: _ => false
  end.

Definition get_nowait (q : list batch) : option (batch * list batch) :=
  match q with
  | [] => None
  | b :: q' => Some (b, q')
  end.

Definition max_per_call : nat := 20.

(** The local variables of [_process_display_output_queue].  [update_info]
    starts as the empty list [[]] ([None] here) and is afterwards the batch
    popped last. *)
Record locals : Type := Locals {
  count : nat;
  highlighted_log_lines : list segment;
  update_info : option batch
}.

Definition init_locals : locals :=
  {| count := 0; highlighted_log_lines := []; update_info := None |}.

Section Tick.

(** The processing thread runs concurrently with the drain: [puts k] are
    the batches it has put on the queue since the previous test of the loop
    condition, seen by test number [k] (tests are numbered by [count]).
    [λ _, []] is a drain during which the worker puts nothing. *)
Variable puts : nat → list batch.

(** Everything put on the queue during the [m] tests starting at test [k]. *)
Definition arrived (k m : nat) : list batch := concat (puts <$> seq k m).

(** The [while] loop.  Each unit of fuel pays for one test of the loop
    condition; [None] is running out of fuel. *)
Fixpoint drain_while (fuel : nat) (q : list batch) (l : locals)
    : option (list batch * locals) :=
  match fuel with
  | 0 => None
  | S fuel' =>
    let q := q ++ puts (count l) in
    if negb (empty q) && bool_decide (count l < max_per_call) then
      match get_nowait q with
      | Some (b, q') =>
        let l' := {| count := count l + 1;
                     highlighted_log_lines :=
                       highlighted_log_lines l ++ highlighted_text_list b;
                     update_info := Some b |} in
        if bool_decide (append b = false)
        then Some (q', l')                       (* break *)
        else drain_while fuel' q' l'
      | None => Some (q, l)                      (* except queue.Empty: break *)
      end
    else Some (q, l)
  end.

(** What the function hands to [display_log_update] after the loop:
    nothing when [update_info] is still [[]], otherwise the batch popped
    last with its [highlighted_text_list] overwritten by the accumulated
    lines. *)
Definition combined_update (l : locals) : option batch :=
  match update_info l with
  | None => None
  | Some u => Some {| highlighted_text_list := highlighted_log_lines l;
                      append := append u |}
  end.

(** The log view is outside this file: any state [Renderer] with any
    effect [display_log_update] of an update on it. *)
Context {Renderer : Type}.
Variable display_log_update : batch → Renderer → Renderer.

Definition _process_display_output_queue (q : list batch) (r : Renderer)
    : option (list batch * Renderer) :=
  match drain_while (S max_per_call) q init_locals with
  | None => None
  | Some (q', l) =>
    Some (q', match combined_update l with
              | None => r
              | Some u => display_log_update u r
              end)
  end.

End Tick.

(** The renderer seen as the log of the calls to [display_log_update]. *)
Definition record_call (u : batch) (calls : list batch) : list batch :=
  calls ++ [u].

(** The worker puts nothing during the drain. *)
Definition idle : nat → list batch := λ _, [].

(** [n] successive drains with the worker idle; the queue they leave. *)
Fixpoint ticks (n : nat) (q : list batch) : option (list batch) :=
  match n with
  | 0 => Some q
  | S n' =>
    match drain_while idle (S max_per_call) q init_locals with
    | None => None
    | Some (q', _) => ticks n' q'
    end
  end.

(** The batches of the drain coalescing scenario. *)
Definition batch_x : batch := Batch [("x", false)] true.
Definition batch_y : batch := Batch [("y", false)] true.
Definition batch_z : batch := Batch [("z", false)] true.
Definition batch_pq : batch := Batch [("p", false); ("q", false)] false.

End Drain.

(** ** The log processing thread *)

Module Worker.
Import Py.

(** A log processing item is a dict with optional string fields
    ["line"], ["filter_string"], ["highlight_string"], ["pause_string"]. *)
Abbreviation item := (gmap string string).

(** [k in d] and [d[k]]. *)
Definition contains (k : string) (d : item) : bool :=
  bool_decide (is_Some (d !! k)).

Definition getitem (d : item) (k : string) : M string :=
  match d !! k with
  | Some v => ret v
  | None => raise (KeyError k)
  end.

(** [Queue.get(timeout=0.1)] on the queue content the call ends with:
    the head, or [queue.Empty] when the timeout expired on an empty queue. *)
Definition get (q : list item) : M (item * list item) :=
  match q with
  | [] => raise Empty
  | i :: q' => ret (i, q')
  end.

(** The four values passed to the log handler. *)
Definition parsed : Type :=
  string * option string * option string * option string.

(** "Parse log processing item". *)
Definition parse (log_input : item) : M parsed :=
  let! line :=
    if contains "line" log_input
    then getitem log_input "line" else ret "" in
  let! filter_string :=
    if contains "filter_string" log_input
    then (let! v := getitem log_input "filter_string" in ret (Some v))
    else ret None in
  let! highlight_string :=
    if contains "highlight_string" log_input
    then (let! v := getitem log_input "highlight_string" in ret (Some v))
    else ret None in
  let! pause_string :=
    if contains "pause_string" log_input
    then (let! v := getitem log_input "pause_string" in ret (Some v))
    else ret None in
  ret (line, filter_string, highlight_string, pause_string).

Section Thread.

(** The log handler lives in [libs/log/log_controller]: it is taken as a
    state [Handler] and a function [process] from the four arguments and the
    state before to what the call returns or raises, and the state after. *)
Context {Handler : Type}.
Variable process :
  string → option string → option string → option string →
  Handler → M Drain.batch * Handler.

Record state : Type := State {
  log_processing_input_queue : list item;
  display_output_queue : list Drain.batch;
  log_handler : Handler
}.

(** The body of the [try] block: how it ends ([inl e]: [e] was raised) and
    the state it has reached by then. *)
Definition try_block (st : state) : M unit * state :=
  match get (log_processing_input_queue st) with
  | inl e => (inl e, st)
  | inr (log_input, in_q) =>
    let st := {| log_processing_input_queue := in_q;
                 display_output_queue := display_output_queue st;
                 log_handler := log_handler st |} in
    match parse log_input with
    | inl e => (inl e, st)
    | inr (line, filter_string, highlight_string, pause_string) =>
      let '(update_info, h) :=
        process line filter_string highlight_string pause_string
                (log_handler st) in
      let st := {| log_processing_input_queue := log_processing_input_queue st;
                   display_output_queue := display_output_queue st;
                   log_handler := h |} in
      match update_info with
      | inl e => (inl e, st)
      | inr update_info =>
        (inr (),
         {| log_processing_input_queue := log_processing_input_queue st;
            display_output_queue := display_output_queue st ++ [update_info];
            log_handler := log_handler st |})
      end
    end
  end.

(** One iteration of [while True]: the [try] with [except queue.Empty: pass],
    which catches [queue.Empty] wherever in the block it was raised and
    nothing else; [time.sleep(0.01)] leaves the state alone. *)
Definition iteration (st : state) : M unit * state :=
  let '(outcome, st') := try_block st in
  (try_except outcome
     (λ e, match e with
           | Empty => Some (ret ())
           | _ => None
           end), st').


(** The arguments the handler is called with for an item. *)
Definition arguments (i : item) : parsed :=
  (default "" (i !! "line"), i !! "filter_string",
   i !! "highlight_string", i !! "pause_string").

Definition process_item (i : item) (h : Handler) : M Drain.batch * Handler :=
  let '(line, filter_string, highlight_string, pause_string) := arguments i in
  process line filter_string highlight_string pause_string h.

End Thread.

Section Returning.

(** A handler whose [process] always returns, given by the function [f] it
    computes, and its handling of a list of items one after the other. *)
Context {Handler : Type}.
Variable f :
  string → option string → option string → option string →
  Handler → Drain.batch * Handler.




End Returning.


End Worker.

(** ** The time gate of the GUI loop *)

Module Gui.

Definition LOG_UPDATE_TIME_INTERVAL_ms : Z := 100.

(** [LOG_UPDATE_TIME_INTERVAL_ms / 1000.0], a binary64 division. *)
Definition log_update_time_interval_s : float :=
  (of_uint63 (Uint63.of_Z LOG_UPDATE_TIME_INTERVAL_ms) / 1000)%float.

Section Run.

(** What the drain works on (output queue and log view) and the drain. *)
Context {View : Type}.
Variable drain : View → View.

(** [drain_calls] records, oldest first, the clock reading of every
    iteration that called the drain. *)
Record state : Type := State {
  last_processed_time : float;
  view : View;
  drain_calls : list float
}.

(** "Update log", the end of one iteration of the GUI event loop;
    [current_time] is the value [time.time()] returns there. *)
Definition update_log (current_time : float) (st : state) : state :=
  if (log_update_time_interval_s <=? current_time - last_processed_time st)%float
  then {| last_processed_time := current_time;
          view := drain (view st);
          drain_calls := drain_calls st ++ [current_time] |}
  else st.

(** The loop over the clock readings of its successive iterations. *)
Fixpoint run (readings : list float) (st : state) : state :=
  match readings with
  | [] => st
  | t :: readings' => run readings' (update_log t st)
  end.

(** The state [__init__] leaves: [last_processed_time = time.time()]. *)
Definition init (now : float) (v : View) : state :=
  {| last_processed_time := now; view := v; drain_calls := [] |}.

End Run.

(** Every reading of [calls] is at least the interval after the one before
    it, [prev] being the one before the first; in binary64 arithmetic, as
    the loop computes it. *)
Fixpoint spaced (prev : float) (calls : list float) : Prop :=
  match calls with
  | [] => True
  | t :: calls' =>
    (log_update_time_interval_s <=? t - prev)%float = true ∧ spaced t calls'
  end.

(** What the loop keeps true: the recorded calls are spaced, and
    [last_processed_time] is the reading of the latest call, or the initial
    reading when there was none. *)
Definition gate_inv {View : Type} (now : float) (st : state (View:=View)) : Prop :=
  spaced now (drain_calls st) ∧
  last_processed_time st = default now (last (drain_calls st)).

End Gui.

(** ** Configuration: MCU history and config file *)

Module Config.
Import Py.

(** The values [json.load] returns. *)
#[local] Unset Elimination Schemes.
Inductive json : Type :=
| JNone
| JBool (b : bool)
| JInt (z : Z)
| JFloat (f : float)
| JStr (s : string)
| JList (l : list json)
| JDict (d : gmap string json).
#[local] Set Elimination Schemes.

Definition isinstance_dict (data : json) : bool :=
  match data with
  | JDict _ => true
  | _ => false
  end.

Definition default_config : json :=
  JDict (<["mcu_history" := JList []]> (<["last_interface" := JStr "SWD"]> ∅)).

Section Load.

(** The outcome of opening and reading the config file, and [json.load]'s
    decoding of a file content (a library function). *)
Variable open_read : M string.
Variable json_load : string → M json.

(** The [with] block answers [Some data] when it returns [data] and [None]
    when control falls out of it. *)
Definition _load_config : M json :=
  let! returned :=
    try_except
      (let! f := open_read in
       let! data := json_load f in
       if isinstance_dict data then ret (Some data) else ret None)
      (λ e, if isinstance_Exception e then Some (ret None) else None) in
  match returned with
  | Some data => ret data
  | None => ret default_config
  end.

End Load.

(** The two attributes of the viewer that [_update_mcu_history] reads and
    writes; [_save_config] and [_update_mcu_combo], called at its end, assign
    neither. *)
Record viewer : Type := Viewer {
  supported_mcu_list : list string;
  mcu_history : list string
}.

Definition _update_mcu_history (mcu : string) (v : viewer) : viewer :=
  if bool_decide (mcu ∈ supported_mcu_list v) then
    let inserted :=
      if bool_decide (mcu ∈ mcu_history v)
      then mcu_history v
      else mcu :: mcu_history v in
    {| supported_mcu_list := supported_mcu_list v;
       mcu_history := take 10 inserted |}
  else v.

(** A history longer than ten entries, as a config file written by hand
    can hold, with the selected MCU as its eleventh entry. *)
Definition long_history_viewer : viewer :=
  {| supported_mcu_list := ["STM32F103C8"; "STM32F427II"];
     mcu_history := ["M0"; "M1"; "M2"; "M3"; "M4"; "M5"; "M6"; "M7"; "M8";
                     "M9"; "STM32F427II"] |}.

End Config.

(** ** The segments of batches *)

Module Pipeline.
Import Drain.

(** All segments of a list of batches, in order. *)
Definition segments_of (bs : list batch) : list segment :=
  concat (highlighted_text_list <$> bs).

End Pipeline.

(** ** The MCU combo box *)

Module Mcu.
Import Config.

(** The values of the MCU combo box: the history under a header when there
    is one, then every supported MCU under a second header. *)
Definition _build_mcu_combo_values (v : viewer) : list string :=
  let combo := [] in
  let combo :=
    if bool_decide (mcu_history v ≠ [])
    then (combo ++ ["--- Last used ---"]) ++ mcu_history v
    else combo in
  let combo := combo ++ ["--- All ---"] in
  combo ++ supported_mcu_list v.

(** [_update_mcu_history] called for each MCU of [mcus] in turn, as
    successive connects do. *)
Definition update_all (mcus : list string) (v : viewer) : viewer :=
  foldl (λ v mcu, _update_mcu_history mcu v) v mcus.

End Mcu.

(** ** Saving the configuration and reading it back at start-up *)

Module Persist.
Import Py Config.

(** The two attributes [_save_config] writes. *)
Record settings : Type := Settings {
  s_mcu_history : list string;
  s_last_interface : string
}.

(** [{'mcu_history': self.mcu_history, 'last_interface': self.last_interface}] *)
Definition config_of (s : settings) : json :=
  JDict (<["mcu_history" := JList (JStr <$> s_mcu_history s)]>
           (<["last_interface" := JStr (s_last_interface s)]> ∅)).

(** The config file is its content, or [None] when it does not exist.
    [open(path, 'r')] followed by reading it: *)
Definition open_r (file : option string) : M string :=
  match file with
  | Some content => ret content
  | None => raise (OSError "No such file or directory")
  end.

(** What start-up can end with besides a result: an exception out of
    [_load_config], or [config.get] on a value that is no dict. *)
Inductive init_exn : Type :=
| LoadRaised (e : exn)
| AttributeError.

Section Files.

(** [json.dump]'s text for a value and [json.load]'s decoding of a text
    (library functions). *)
Variable json_dump : json → string.
Variable json_load : string → M json.

(** [open_w] is the outcome of [open(path, 'w')]: when it raises, the file
    is left as it was; otherwise the file has been truncated.  [write] is
    the outcome of [json.dump] into it: [None] when the whole text was
    written, [Some (e, partial)] when [e] was raised with [partial] in the
    file.  The result is how the call ends and the file afterwards. *)
Definition _save_config (open_w : M unit) (write : option (exn * string))
    (s : settings) (file : option string) : M unit * option string :=
  let '(outcome, file') :=
    let config := config_of s in
    match open_w with
    | inl e => (inl e, file)
    | inr _ =>
      match write with
      | Some (e, partial) => (inl e, Some partial)
      | None => (inr (), Some (json_dump config))
      end
    end in
  (try_except outcome
     (λ e, if isinstance_Exception e then Some (ret ()) else None), file').

(** [config.get(key, default)] *)
Definition get (key : string) (dflt : json) (config : json)
    : init_exn + json :=
  match config with
  | JDict d => inr (default dflt (d !! key))
  | _ => inl AttributeError
  end.

(** "Load configuration" in [__init__]: the values given to
    [self.mcu_history] and [self.last_interface]. *)
Definition init_config (file : option string) : init_exn + (json * json) :=
  match _load_config (open_r file) json_load with
  | inl e => inl (LoadRaised e)
  | inr config =>
    match get "mcu_history" (JList []) config with
    | inl e => inl e
    | inr mcu_history =>
      match get "last_interface" (JStr "SWD") config with
      | inl e => inl e
      | inr last_interface => inr (mcu_history, last_interface)
      end
    end
  end.

End Files.

End Persist.

(** ** The GUI events *)

Module Events.
Import Py Config Mcu Persist.

(** The entries of [values] that [handle_events] reads. *)
Record values : Type := Values {
  v_MCU : string;
  v_FILTER : string;
  v_HIGHLIGHT : string
}.

(** The widgets [handle_events] reads or updates. *)
Record window : Type := Window {
  w_MCU_value : string;
  w_MCU_values : list string;
  w_INTERFACE_value : string;
  w_PAUSE_text : string;
  w_STATUS : string;
  w_CONNECT_disabled : bool;
  w_DISCONNECT_disabled : bool
}.

Section Handle.

(** Everything behind the RTT handler, the log controller, the log view and
    the file dialog is a state [Ext]; each call into it answers what it
    returns or raises and the state after.  [connect] and [disconnect] are
    the RTT handler's; [clear] is the three calls of the ['-CLEAR-'] branch;
    [popup_get_file] is the save dialog; [write_log path] is the body of the
    [try] of the ['-SAVE-'] branch, which writes the raw lines to [path]. *)
Context {Ext : Type}.
Variable connect : string → string → Ext → M bool * Ext.
Variable disconnect : Ext → M unit * Ext.
Variable clear : Ext → M unit * Ext.
Variable popup_get_file : Ext → M (option string) * Ext.
Variable write_log : string → Ext → M unit * Ext.
Variable json_dump : json → string.
Variable str : exn → string.

Record viewer : Type := Viewer {
  supported_mcu_list : list string;
  mcu_history : list string;
  last_interface : string;
  current_mcu : option string;       (* [None]: the attribute is not set *)
  mcu_filter_string : string;
  mcu_list_last_update_time : float;
  filter_input_string : string;
  highlight_input_string : string;
  log_processing_input_queue : list (gmap string string);
  win : window;
  config_file : option string;
  popup_errors : list string;        (* the calls of [sg.popup_error] *)
  ext : Ext
}.

Definition set_win (w : window) (s : viewer) : viewer :=
  {| supported_mcu_list := supported_mcu_list s;
     mcu_history := mcu_history s;
     last_interface := last_interface s;
     current_mcu := current_mcu s;
     mcu_filter_string := mcu_filter_string s;
     mcu_list_last_update_time := mcu_list_last_update_time s;
     filter_input_string := filter_input_string s;
     highlight_input_string := highlight_input_string s;
     log_processing_input_queue := log_processing_input_queue s;
     win := w;
     config_file := config_file s;
     popup_errors := popup_errors s;
     ext := ext s |}.

Definition set_ext (x : Ext) (s : viewer) : viewer :=
  {| supported_mcu_list := supported_mcu_list s;
     mcu_history := mcu_history s;
     last_interface := last_interface s;
     current_mcu := current_mcu s;
     mcu_filter_string := mcu_filter_string s;
     mcu_list_last_update_time := mcu_list_last_update_time s;
     filter_input_string := filter_input_string s;
     highlight_input_string := highlight_input_string s;
     log_processing_input_queue := log_processing_input_queue s;
     win := win s;
     config_file := config_file s;
     popup_errors := popup_errors s;
     ext := x |}.

Definition _update_gui_status (connected : bool) (s : viewer) : viewer :=
  let w := win s in
  set_win {| w_MCU_value := w_MCU_value w;
             w_MCU_values := w_MCU_values w;
             w_INTERFACE_value := w_INTERFACE_value w;
             w_PAUSE_text := w_PAUSE_text w;
             w_STATUS := if connected then "Status: Connected"
                         else "Status: Disconnected";
             w_CONNECT_disabled := connected;
             w_DISCONNECT_disabled := negb connected |} s.

(** [_save_config] on the viewer; [open_w] and [write] are the outcomes of
    opening the file and of writing it.  An exception its [except Exception]
    does not catch would be lost here; there is none. *)
Definition save_config (open_w : M unit) (write : option (exn * string))
    (s : viewer) : viewer :=
  match Persist._save_config json_dump open_w write
          (Settings (mcu_history s) (last_interface s)) (config_file s) with
  | (_, file) =>
    {| supported_mcu_list := supported_mcu_list s;
       mcu_history := mcu_history s;
       last_interface := last_interface s;
       current_mcu := current_mcu s;
       mcu_filter_string := mcu_filter_string s;
       mcu_list_last_update_time := mcu_list_last_update_time s;
       filter_input_string := filter_input_string s;
       highlight_input_string := highlight_input_string s;
       log_processing_input_queue := log_processing_input_queue s;
       win := win s;
       config_file := file;
       popup_errors := popup_errors s;
       ext := ext s |}
  end.

Definition with_history (h : list string) (s : viewer) : viewer :=
  {| supported_mcu_list := supported_mcu_list s;
     mcu_history := h;
     last_interface := last_interface s;
     current_mcu := current_mcu s;
     mcu_filter_string := mcu_filter_string s;
     mcu_list_last_update_time := mcu_list_last_update_time s;
     filter_input_string := filter_input_string s;
     highlight_input_string := highlight_input_string s;
     log_processing_input_queue := log_processing_input_queue s;
     win := win s;
     config_file := config_file s;
     popup_errors := popup_errors s;
     ext := ext s |}.

(** [_update_mcu_combo]: the values are rebuilt, the selection is kept. *)
Definition _update_mcu_combo (s : viewer) : viewer :=
  let w := win s in
  let selected_mcu := w_MCU_value w in
  set_win {| w_MCU_value := selected_mcu;
             w_MCU_values :=
               _build_mcu_combo_values
                 (Config.Viewer (supported_mcu_list s) (mcu_history s));
             w_INTERFACE_value := w_INTERFACE_value w;
             w_PAUSE_text := w_PAUSE_text w;
             w_STATUS := w_STATUS w;
             w_CONNECT_disabled := w_CONNECT_disabled w;
             w_DISCONNECT_disabled := w_DISCONNECT_disabled w |} s.

(** [_update_mcu_history] with the two calls at its end. *)
Definition update_mcu_history (open_w : M unit)
    (write : option (exn * string)) (mcu : string) (s : viewer) : viewer :=
  if bool_decide (mcu ∈ supported_mcu_list s) then
    let v := Config._update_mcu_history mcu
               (Config.Viewer (supported_mcu_list s) (mcu_history s)) in
    _update_mcu_combo
      (save_config open_w write (with_history (Config.mcu_history v) s))
  else s.

Definition set_last_interface (x : string) (s : viewer) : viewer :=
  {| supported_mcu_list := supported_mcu_list s;
     mcu_history := mcu_history s;
     last_interface := x;
     current_mcu := current_mcu s;
     mcu_filter_string := mcu_filter_string s;
     mcu_list_last_update_time := mcu_list_last_update_time s;
     filter_input_string := filter_input_string s;
     highlight_input_string := highlight_input_string s;
     log_processing_input_queue := log_processing_input_queue s;
     win := win s;
     config_file := config_file s;
     popup_errors := popup_errors s;
     ext := ext s |}.

Definition set_current_mcu (x : option string) (s : viewer) : viewer :=
  {| supported_mcu_list := supported_mcu_list s;
     mcu_history := mcu_history s;
     last_interface := last_interface s;
     current_mcu := x;
     mcu_filter_string := mcu_filter_string s;
     mcu_list_last_update_time := mcu_list_last_update_time s;
     filter_input_string := filter_input_string s;
     highlight_input_string := highlight_input_string s;
     log_processing_input_queue := log_processing_input_queue s;
     win := win s;
     config_file := config_file s;
     popup_errors := popup_errors s;
     ext := ext s |}.

Definition set_mcu_filter_string (x : string) (s : viewer) : viewer :=
  {| supported_mcu_list := supported_mcu_list s;
     mcu_history := mcu_history s;
     last_interface := last_interface s;
     current_mcu := current_mcu s;
     mcu_filter_string := x;
     mcu_list_last_update_time := mcu_list_last_update_time s;
     filter_input_string := filter_input_string s;
     highlight_input_string := highlight_input_string s;
     log_processing_input_queue := log_processing_input_queue s;
     win := win s;
     config_file := config_file s;
     popup_errors := popup_errors s;
     ext := ext s |}.

Definition set_mcu_list_last_update_time (x : float) (s : viewer) : viewer :=
  {| supported_mcu_list := supported_mcu_list s;
     mcu_history := mcu_history s;
     last_interface := last_interface s;
     current_mcu := current_mcu s;
     mcu_filter_string := mcu_filter_string s;
     mcu_list_last_update_time := x;
     filter_input_string := filter_input_string s;
     highlight_input_string := highlight_input_string s;
     log_processing_input_queue := log_processing_input_queue s;
     win := win s;
     config_file := config_file s;
     popup_errors := popup_errors s;
     ext := ext s |}.

Definition set_filter_input_string (x : string) (s : viewer) : viewer :=
  {| supported_mcu_list := supported_mcu_list s;
     mcu_history := mcu_history s;
     last_interface := last_interface s;
     current_mcu := current_mcu s;
     mcu_filter_string := mcu_filter_string s;
     mcu_list_last_update_time := mcu_list_last_update_time s;
     filter_input_string := x;
     highlight_input_string := highlight_input_string s;
     log_processing_input_queue := log_processing_input_queue s;
     win := win s;
     config_file := config_file s;
     popup_errors := popup_errors s;
     ext := ext s |}.

Definition set_highlight_input_string (x : string) (s : viewer) : viewer :=
  {| supported_mcu_list := supported_mcu_list s;
     mcu_history := mcu_history s;
     last_interface := last_interface s;
     current_mcu := current_mcu s;
     mcu_filter_string := mcu_filter_string s;
     mcu_list_last_update_time := mcu_list_last_update_time s;
     filter_input_string := filter_input_string s;
     highlight_input_string := x;
     log_processing_input_queue := log_processing_input_queue s;
     win := win s;
     config_file := config_file s;
     popup_errors := popup_errors s;
     ext := ext s |}.

Definition set_queue (x : list (gmap string string)) (s : viewer) : viewer :=
  {| supported_mcu_list := supported_mcu_list s;
     mcu_history := mcu_history s;
     last_interface := last_interface s;
     current_mcu := current_mcu s;
     mcu_filter_string := mcu_filter_string s;
     mcu_list_last_update_time := mcu_list_last_update_time s;
     filter_input_string := filter_input_string s;
     highlight_input_string := highlight_input_string s;
     log_processing_input_queue := x;
     win := win s;
     config_file := config_file s;
     popup_errors := popup_errors s;
     ext := ext s |}.

Definition set_popup_errors (x : list string) (s : viewer) : viewer :=
  {| supported_mcu_list := supported_mcu_list s;
     mcu_history := mcu_history s;
     last_interface := last_interface s;
     current_mcu := current_mcu s;
     mcu_filter_string := mcu_filter_string s;
     mcu_list_last_update_time := mcu_list_last_update_time s;
     filter_input_string := filter_input_string s;
     highlight_input_string := highlight_input_string s;
     log_processing_input_queue := log_processing_input_queue s;
     win := win s;
     config_file := config_file s;
     popup_errors := x;
     ext := ext s |}.

(** What one call of [handle_events] meets outside: the outcomes of opening
    and of writing the config file for the two saves of a connect, and
    [time.time()]. *)
Record env : Type := Env {
  open_w1 : M unit;
  write1 : option (exn * string);
  open_w2 : M unit;
  write2 : option (exn * string);
  time : float
}.

Definition set_MCU_value (value : string) (w : window) : window :=
  {| w_MCU_value := value;
     w_MCU_values := w_MCU_values w;
     w_INTERFACE_value := w_INTERFACE_value w;
     w_PAUSE_text := w_PAUSE_text w;
     w_STATUS := w_STATUS w;
     w_CONNECT_disabled := w_CONNECT_disabled w;
     w_DISCONNECT_disabled := w_DISCONNECT_disabled w |}.

Definition set_PAUSE_text (text : string) (w : window) : window :=
  {| w_MCU_value := w_MCU_value w;
     w_MCU_values := w_MCU_values w;
     w_INTERFACE_value := w_INTERFACE_value w;
     w_PAUSE_text := text;
     w_STATUS := w_STATUS w;
     w_CONNECT_disabled := w_CONNECT_disabled w;
     w_DISCONNECT_disabled := w_DISCONNECT_disabled w |}.

(** The body of the [try] of the ['-CONNECT-'] branch. *)
Definition connect_block (e : env) (s : viewer) : M viewer * viewer :=
  let selected_mcu := w_MCU_value (win s) in
  let s := update_mcu_history (open_w1 e) (write1 e) selected_mcu s in
  let selected_interface := w_INTERFACE_value (win s) in
  let s := set_last_interface selected_interface s in
  let s := save_config (open_w2 e) (write2 e) s in
  let '(connected, x) := connect selected_mcu selected_interface (ext s) in
  let s := set_ext x s in
  (let! connected := connected in
   ret (if connected then _update_gui_status true s else s), s).

(** [handle_events(event, values)]: the returned [retVal], or the
    exception that leaves the call, and the state reached.  [event] is [None]
    for [sg.WIN_CLOSED]. *)
Definition handle_events (e : env) (event : option string) (vals : values)
    (s : viewer) : M bool * viewer :=
  match event with
  | None => (ret false, s)
  | Some ev =>
    if bool_decide (ev = "-MCU-") then
      let selected := v_MCU vals in
      if bool_decide (selected ∈ supported_mcu_list s)
      then (ret true, set_mcu_filter_string ""
                        (set_current_mcu (Some selected) s))
      else (ret true, set_win (set_MCU_value (default "" (current_mcu s))
                                             (win s)) s)
    else if bool_decide (ev = "-MCU-KEYRELEASE-") then
      (ret true, set_mcu_list_last_update_time (time e)
                   (set_mcu_filter_string (v_MCU vals) s))
    else if bool_decide (ev = "-CONNECT-") then
      let '(result, reached) := connect_block e s in
      match result with
      | inr s => (ret true, s)
      | inl exc =>
        if isinstance_Exception exc
        then (ret true, set_popup_errors (popup_errors reached ++ [str exc])
                                         reached)
        else (inl exc, reached)
      end
    else if bool_decide (ev = "-DISCONNECT-") then
      let '(outcome, x) := disconnect (ext s) in
      let s := set_ext x s in
      match outcome with
      | inl exc => (inl exc, s)
      | inr _ => (ret true, _update_gui_status false s)
      end
    else if bool_decide (ev = "-CLEAR-") then
      let '(outcome, x) := clear (ext s) in
      let s := set_ext x s in
      match outcome with
      | inl exc => (inl exc, s)
      | inr _ => (ret true, s)
      end
    else if bool_decide (ev = "-SAVE-") then
      let '(save_path, x) := popup_get_file (ext s) in
      let s := set_ext x s in
      match save_path with
      | inl exc => (inl exc, s)
      | inr None => (ret true, s)
      | inr (Some path) =>
        if bool_decide (path = "") then (ret true, s)
        else
          let '(outcome, x) := write_log path (ext s) in
          let s := set_ext x s in
          match outcome with
          | inr _ => (ret true, s)
          | inl exc =>
            if isinstance_Exception exc
            then (ret true,
                  set_popup_errors
                    (popup_errors s ++ ["Failed to save log: " +:+ str exc]) s)
            else (inl exc, s)
          end
      end
    else if bool_decide (ev = "-FILTER-") then
      (ret true, set_filter_input_string (v_FILTER vals) s)
    else if bool_decide (ev = "-HIGHLIGHT-") then
      (ret true, set_highlight_input_string (v_HIGHLIGHT vals) s)
    else if bool_decide (ev = "-PAUSE-") then
      let current_text := w_PAUSE_text (win s) in
      let new_text :=
        if bool_decide (current_text = "Pause") then "Unpause" else "Pause" in
      let s := set_win (set_PAUSE_text new_text (win s)) s in
      (ret true, set_queue (log_processing_input_queue s ++
                            [ {["pause_string" := new_text]} ]) s)
    else (ret true, s)
  end.

(** A sequence of events, each with its values and surroundings, handled
    one after the other until one returns [False] (the GUI loop breaks) or
    raises (the exception leaves the loop). *)
Fixpoint handle_all (evs : list (env * option string * values)) (s : viewer)
    : M unit * viewer :=
  match evs with
  | [] => (ret (), s)
  | (e, event, vals) :: evs' =>
    let '(retVal, s') := handle_events e event vals s in
    match retVal with
    | inl exc => (inl exc, s')
    | inr true => handle_all evs' s'
    | inr false => (ret (), s')
    end
  end.

End Handle.

(** The status line and the two buttons agree: Disconnect is disabled
    exactly when Connect is enabled, and the status says "Connected" exactly
    when Connect is disabled. *)
Definition buttons_agree (w : window) : Prop :=
  w_DISCONNECT_disabled w = negb (w_CONNECT_disabled w) ∧
  w_STATUS w = if w_CONNECT_disabled w then "Status: Connected"
               else "Status: Disconnected".

(** The viewer as [__init__] leaves it with no config file and two
    supported MCUs; nothing stands behind the external calls. *)
Definition start_viewer : viewer (Ext:=unit) :=
  {| supported_mcu_list := ["STM32F103C8"; "STM32F427II"];
     mcu_history := [];
     last_interface := "SWD";
     current_mcu := None;
     mcu_filter_string := "";
     mcu_list_last_update_time := 0%float;
     filter_input_string := "";
     highlight_input_string := "";
     log_processing_input_queue := [];
     win := {| w_MCU_value := "STM32F427II";
               w_MCU_values := ["--- All ---"; "STM32F103C8"; "STM32F427II"];
               w_INTERFACE_value := "SWD";
               w_PAUSE_text := "Pause";
               w_STATUS := "Status: Disconnected";
               w_CONNECT_disabled := false;
               w_DISCONNECT_disabled := true |};
     config_file := None;
     popup_errors := [];
     ext := () |}.

(** Surroundings in which the config file can be written. *)
Definition writable : env :=
  {| open_w1 := inr (); write1 := None;
     open_w2 := inr (); write2 := None; time := 0%float |}.

End Events.

(** * Properties *)

(** ** The drain *)

Section DrainFacts.
Import Drain.

Variable puts : nat → list batch.

Lemma arrived_S k m : arrived puts k (S m) = puts k ++ arrived puts (S k) m.
Proof. reflexivity. Qed.

Lemma arrived_1 k : arrived puts k 1 = puts k.
Proof. unfold arrived. cbn. apply app_nil_r. Qed.

Lemma drain_while_S fuel q l :
  drain_while puts (S fuel) q l =
  let q := q ++ puts (count l) in
  if negb (empty q) && bool_decide (count l < max_per_call) then
    match get_nowait q with
    | Some (b, q') =>
      let l' := {| count := count l + 1;
                   highlighted_log_lines :=
                     highlighted_log_lines l ++ highlighted_text_list b;
                   update_info := Some b |} in
      if bool_decide (append b = false)
      then Some (q', l')
      else drain_while puts fuel q' l'
    | None => Some (q, l)
    end
  else Some (q, l).
Proof. reflexivity. Qed.

(** The loop ends once the fuel exceeds the pops the cap still allows. *)
Lemma drain_while_terminates fuel q l :
  max_per_call - count l < fuel → is_Some (drain_while puts fuel q l).
Proof.
  revert q l. induction fuel as [|fuel IH]; intros q l Hfuel; [lia|].
  rewrite drain_while_S. cbv zeta.
  destruct (q ++ puts (count l)) as [|b q1]; [by eexists|].
  cbn [empty negb andb get_nowait].
  case_bool_decide as Hcap; [|by eexists].
  case_bool_decide; [by eexists|].
  apply IH. cbn [count]. lia.
Qed.

Lemma drain_terminates q :
  is_Some (drain_while puts (S max_per_call) q init_locals).
Proof. apply drain_while_terminates. unfold init_locals, count. lia. Qed.

(** What a finished loop has done, in terms of the batches [popped]: they
    are a prefix of the queue extended by the arrivals of [m] tests, the
    locals account for each of them, nothing is popped after a batch with
    [append = false], and the loop ended for one of its three reasons. *)
Lemma drain_while_popped fuel q l q' l' :
  drain_while puts fuel q l = Some (q', l') →
  ∃ popped m,
    q ++ arrived puts (count l) m = popped ++ q' ∧
    count l' = count l + length popped ∧
    highlighted_log_lines l' =
      highlighted_log_lines l ++ concat (highlighted_text_list <$> popped) ∧
    update_info l' = from_option Some (update_info l) (last popped) ∧
    (∀ pre b post, popped = pre ++ b :: post → append b = false → post = []) ∧
    (count l ≤ max_per_call → count l' ≤ max_per_call) ∧
    (q' = [] ∨ max_per_call ≤ count l' ∨
     ∃ b, last popped = Some b ∧ append b = false).
Proof.
  revert q l. induction fuel as [|fuel IH]; intros q l Hrun; [done|].
  rewrite drain_while_S in Hrun. cbv zeta in Hrun.
  destruct (q ++ puts (count l)) as [|b q1] eqn:Hq.
  { injection Hrun as <- <-. exists [], 1. rewrite arrived_1, Hq. cbn.
    rewrite Nat.add_0_r, app_nil_r. split_and!; auto.
    intros [|??] ???; discriminate. }
  cbn [empty negb andb get_nowait] in Hrun.
  case_bool_decide as Hcap.
  2:{ injection Hrun as <- <-. exists [], 1. rewrite arrived_1, Hq. cbn.
      rewrite Nat.add_0_r, !app_nil_r. split_and!; auto.
      - intros [|??] ???; discriminate.
      - right; left; lia. }
  case_bool_decide as Happ.
  { injection Hrun as <- <-. exists [b], 1. rewrite arrived_1, Hq. cbn.
    rewrite app_nil_r. split_and!; auto.
    - intros [|? [|??]] ?? Heq ?; by simplify_eq/=.
    - lia.
    - right; right; eauto. }
  apply IH in Hrun
    as (popped & m & Hstream & Hcount & Hlines & Hlast & Hstop & Hle & Hend).
  cbn [count highlighted_log_lines update_info] in *.
  exists (b :: popped), (S m). split_and!.
  - rewrite arrived_S, app_assoc, Hq. cbn. f_equal.
    by replace (S (count l)) with (count l + 1) by lia.
  - cbn. lia.
  - rewrite Hlines. cbn. by rewrite <- app_assoc.
  - rewrite Hlast, last_cons. by destruct (last popped).
  - intros [|a pre] b' post Heq Hb'; simplify_eq/=; eauto.
  - lia.
  - destruct Hend as [?|[?|(b' & Hb' & ?)]]; auto.
    right; right. exists b'. by rewrite last_cons, Hb'.
Qed.

(** A queue that starts with append batches [pre] followed by a full
    refresh [b], all within the cap: the loop pops exactly [pre] and [b]. *)
Lemma drain_while_full_refresh fuel pre b post l :
  Forall (λ a, append a = true) pre → append b = false →
  count l + length pre < max_per_call → length pre < fuel →
  drain_while puts fuel (pre ++ b :: post) l =
  Some (post ++ arrived puts (count l) (S (length pre)),
        {| count := count l + length pre + 1;
           highlighted_log_lines :=
             highlighted_log_lines l ++
             concat (highlighted_text_list <$> pre) ++ highlighted_text_list b;
           update_info := Some b |}).
Proof.
  revert fuel post l.
  induction pre as [|a pre IH]; intros fuel post l Hpre Hb Hcap Hfuel;
    (destruct fuel as [|fuel]; [cbn in Hfuel; lia|]);
    rewrite drain_while_S; cbv zeta; cbn [app empty negb andb get_nowait];
    cbn [length] in *; (rewrite bool_decide_true by lia).
  - rewrite bool_decide_true by done. rewrite arrived_1. cbn.
    by rewrite Nat.add_0_r.
  - apply Forall_cons in Hpre as [Ha Hpre].
    rewrite bool_decide_false by congruence.
    rewrite <- app_assoc, <- app_comm_cons.
    rewrite IH by (cbn [count]; done || lia).
    cbn [count highlighted_log_lines]. rewrite (arrived_S (count l)).
    replace (count l + 1) with (S (count l)) by lia.
    rewrite <- !app_assoc. do 3 f_equal; [lia|].
    cbn. by rewrite <- !app_assoc.
Qed.

End DrainFacts.

Lemma arrived_idle k m : Drain.arrived Drain.idle k m = [].
Proof. revert k. induction m as [|m IH]; intros k; [done|]. apply IH. Qed.

(** With the worker idle, as many drains as the queue has batches empty it:
    every drain of a non-empty queue pops at least one batch. *)
Lemma ticks_empty n q : length q ≤ n → Drain.ticks n q = Some [].
Proof.
  revert q. induction n as [|n IH]; intros q Hn.
  { destruct q; [done|]. cbn in Hn. lia. }
  cbn [Drain.ticks].
  destruct (drain_terminates Drain.idle q) as [[q' l'] Hrun].
  rewrite Hrun. apply IH.
  apply drain_while_popped in Hrun
    as (popped & m & Hstream & Hcount & _ & _ & _ & _ & Hend).
  rewrite arrived_idle, app_nil_r in Hstream. subst q.
  rewrite length_app in Hn. cbn in Hcount.
  destruct Hend as [->|[Hcap|(b & Hb & _)]]; [cbn; lia|..].
  - unfold Drain.max_per_call in Hcap. lia.
  - destruct popped; [done|]. cbn in Hn. lia.
Qed.

Section DrainClaims.
Import Drain.

(** Claim C1, what the code does instead.  When the queue holds append
    batches [pre] followed by a full-refresh batch [b], all within the cap,
    the drain delivers exactly one update to the renderer: it has
    [append = false], but its segments are those of every batch of [pre], in
    queue order, followed by those of [b].  The loop breaks on the full
    refresh without clearing [highlighted_log_lines], so the lines of the
    append batches popped before it are sent inside the replace-all update
    instead of being superseded by it. *)
Theorem full_refresh_keeps_accumulated_segments
    {Renderer : Type} (display_log_update : batch → Renderer → Renderer)
    (puts : nat → list batch) (pre : list batch) (b : batch)
    (post : list batch) (r : Renderer) :
  Forall (λ a, append a = true) pre →
  append b = false →
  length pre < max_per_call →
  _process_display_output_queue puts display_log_update (pre ++ b :: post) r =
  Some (post ++ arrived puts 0 (S (length pre)),
        display_log_update
          {| highlighted_text_list :=
               concat (highlighted_text_list <$> pre) ++ highlighted_text_list b;
             append := false |} r).
Proof.
  intros Hpre Hb Hcap. unfold _process_display_output_queue.
  rewrite drain_while_full_refresh by (cbn [count init_locals]; done || lia).
  unfold combined_update. cbn [update_info highlighted_log_lines init_locals].
  by rewrite Hb.
Qed.

(** The failing input of claim C1: with [x], [y], [z] (append) and then
    [p, q] (full refresh) queued, the one update delivered carries
    x, y, z, p, q where the claim asks for p, q. *)
Lemma full_refresh_keeps_accumulated_segments_witness :
  _process_display_output_queue idle record_call
    [batch_x; batch_y; batch_z; batch_pq] [] =
  Some ([], [ {| highlighted_text_list :=
                   [("x", false); ("y", false); ("z", false);
                    ("p", false); ("q", false)];
                 append := false |} ]).
Proof.
  apply (full_refresh_keeps_accumulated_segments record_call idle
           [batch_x; batch_y; batch_z] batch_pq [] []).
  - repeat constructor.
  - reflexivity.
  - unfold max_per_call. cbn. lia.
Defined.

(** On that input the update delivered is not the
    [{segments: [p, q], append: false}] that claim C1 asks for. *)
Lemma full_refresh_does_not_supersede :
  ¬ ∃ q', _process_display_output_queue idle record_call
            [batch_x; batch_y; batch_z; batch_pq] [] =
          Some (q', [ {| highlighted_text_list := [("p", false); ("q", false)];
                         append := false |} ]).
Proof. intros [q' H]. vm_compute in H. discriminate H. Qed.

(** Claim C2.  In every drain the popped batches are a prefix of the queue
    (extended by what the worker put meanwhile), and a popped batch with
    [append = false] is the last one popped.  Whatever was queued behind it
    is the queue [q'] the drain leaves, and later drains pop all of it: with
    the worker idle, as many drains as [q'] has batches leave it empty. *)
Theorem drain_stops_after_full_refresh (puts : nat → list batch) (q : list batch) :
  ∃ popped m q' l',
    drain_while puts (S max_per_call) q init_locals = Some (q', l') ∧
    q ++ arrived puts 0 m = popped ++ q' ∧
    length popped = count l' ∧
    (∀ pre b post, popped = pre ++ b :: post → append b = false → post = []) ∧
    ticks (length q') q' = Some [].
Proof.
  destruct (drain_terminates puts q) as [[q' l'] Hrun].
  destruct (drain_while_popped _ _ _ _ _ _ Hrun)
    as (popped & m & Hstream & Hcount & _ & _ & Hstop & _).
  exists popped, m, q', l'. split_and!; auto.
  by apply ticks_empty.
Qed.

(** With [x], [p, q] (full refresh), [y], [z] queued, one drain leaves
    [y], [z] on the queue. *)
Lemma drain_stops_after_full_refresh_witness :
  ∃ l', drain_while idle (S max_per_call)
          [batch_x; batch_pq; batch_y; batch_z] init_locals =
        Some ([batch_y; batch_z], l') ∧ count l' = 2.
Proof.
  destruct (drain_stops_after_full_refresh idle
              [batch_x; batch_pq; batch_y; batch_z])
    as (popped & m & q' & l' & Hrun & _ & _ & Hstop & _).
  vm_compute in Hrun. injection Hrun as <- <-.
  eexists. split; reflexivity.
Defined.

(** Claim C3.  For every queue content and every behaviour of the worker
    the loop ends within [max_per_call + 1 = 21] tests of its condition.  It
    has popped at most [max_per_call = 20] batches, and it has stopped only
    because the queue was empty, the cap was reached, or the batch popped
    last was a full refresh. *)
Theorem drain_pops_at_most_max_per_call (puts : nat → list batch) (q : list batch) :
  max_per_call = 20 ∧
  ∃ popped m q' l',
    drain_while puts (S max_per_call) q init_locals = Some (q', l') ∧
    q ++ arrived puts 0 m = popped ++ q' ∧
    length popped = count l' ∧
    length popped ≤ max_per_call ∧
    (q' = [] ∨ length popped = max_per_call ∨
     ∃ b, last popped = Some b ∧ append b = false).
Proof.
  split; [done|].
  destruct (drain_terminates puts q) as [[q' l'] Hrun].
  destruct (drain_while_popped _ _ _ _ _ _ Hrun)
    as (popped & m & Hstream & Hcount & _ & _ & _ & Hle & Hend).
  cbn in Hcount, Hle. specialize (Hle (Nat.le_0_l _)).
  exists popped, m, q', l'. split_and!; auto; [lia|].
  destruct Hend as [?|[?|?]]; auto. right; left. lia.
Qed.

(** Claim C4.  Every drain returns, and its effect on the renderer is fixed
    by the batches it popped: if it popped none the renderer is left as it
    was; otherwise [display_log_update] is applied exactly once, to the
    accumulated segments with the [append] flag of the batch popped last. *)
Theorem drain_delivers_at_most_one_update
    {Renderer : Type} (display_log_update : batch → Renderer → Renderer)
    (puts : nat → list batch) (q : list batch) (r : Renderer) :
  ∃ popped m q' l',
    drain_while puts (S max_per_call) q init_locals = Some (q', l') ∧
    q ++ arrived puts 0 m = popped ++ q' ∧
    length popped = count l' ∧
    _process_display_output_queue puts display_log_update q r =
    Some (q', match last popped with
              | None => r
              | Some b =>
                display_log_update
                  {| highlighted_text_list :=
                       concat (highlighted_text_list <$> popped);
                     append := append b |} r
              end).
Proof.
  destruct (drain_terminates puts q) as [[q' l'] Hrun].
  destruct (drain_while_popped _ _ _ _ _ _ Hrun)
    as (popped & m & Hstream & Hcount & Hlines & Hlast & _).
  exists popped, m, q', l'. split_and!; auto.
  unfold _process_display_output_queue, combined_update.
  rewrite Hrun, Hlast, Hlines. cbn. by destruct (last popped).
Qed.

End DrainClaims.

(** ** The log processing thread *)

Section WorkerFacts.
Import Py Worker.

Context {Handler : Type}.
Variable process :
  string → option string → option string → option string →
  Handler → M Drain.batch * Handler.

(** The guarded lookups of the parse never raise [KeyError]. *)
Lemma parse_arguments (i : item) : parse i = ret (arguments i).
Proof.
  unfold parse, arguments, contains, getitem.
  destruct (i !! "line"), (i !! "filter_string"),
    (i !! "highlight_string"), (i !! "pause_string"); reflexivity.
Qed.

(** An iteration that finds an item: the item is removed, the handler is
    called once, and what follows depends on how that call ends. *)
Lemma iteration_item (i : item) in_q out (h : Handler) :
  iteration process (State (i :: in_q) out h) =
  match (process_item process i h).1 with
  | inr update_info =>
    (inr (), State in_q (out ++ [update_info]) (process_item process i h).2)
  | inl Empty => (inr (), State in_q out (process_item process i h).2)
  | inl e => (inl e, State in_q out (process_item process i h).2)
  end.
Proof.
  unfold iteration, try_block. cbn [log_processing_input_queue get ret].
  rewrite parse_arguments. unfold process_item, arguments. cbn [ret].
  cbn [display_output_queue log_handler log_processing_input_queue].
  destruct (process _ _ _ _ h) as [[[]|u] h']; reflexivity.
Qed.


End WorkerFacts.

Section WorkerReturning.
Import Py Worker.

Context {Handler : Type}.
Variable f :
  string → option string → option string → option string →
  Handler → Drain.batch * Handler.



End WorkerReturning.

Section WorkerClaims.
Import Py Worker.






End WorkerClaims.

(** ** The time gate of the GUI loop *)

Section GuiFacts.
Import Gui.

Context {View : Type}.
Variable drain : View → View.

(** The interval is the binary64 number nearest to 0.1. *)
Lemma log_update_time_interval_s_value :
  log_update_time_interval_s = 0x1.999999999999ap-4%float.
Proof. reflexivity. Qed.

Lemma spaced_snoc prev calls t :
  spaced prev calls →
  (log_update_time_interval_s <=? t - default prev (last calls))%float = true →
  spaced prev (calls ++ [t]).
Proof.
  revert prev. induction calls as [|c calls IH]; intros prev Hcalls Ht.
  { by split. }
  destruct Hcalls as [Hc Hcalls]. split; [done|].
  apply IH; [done|]. rewrite last_cons in Ht. by destruct (last calls).
Qed.

Lemma update_log_inv now t st :
  gate_inv now st → gate_inv now (update_log drain t st).
Proof.
  intros [Hsp Hlast]. unfold update_log.
  destruct (log_update_time_interval_s <=? t - last_processed_time st)%float
    eqn:Hgate; [|done].
  split; cbn [drain_calls last_processed_time].
  - apply spaced_snoc; [done|]. by rewrite <- Hlast.
  - by rewrite last_snoc.
Qed.

Lemma run_inv now readings st :
  gate_inv now st → gate_inv now (run drain readings st).
Proof.
  revert st. induction readings as [|t readings IH]; intros st Hst; [done|].
  cbn [run]. by apply IH, update_log_inv.
Qed.

(** Claim C8.  The interval is [100 / 1000.0], the binary64 number nearest
    to 0.1.  An iteration whose clock reading is less than the interval after
    [last_processed_time] calls no drain and changes nothing; one that is at
    least the interval after it calls the drain once and stores its reading.
    Hence over any run of the loop, from the state [__init__] leaves, the
    readings at which the drain was called are each at least the interval
    after the one before (the first after the initial reading), in the
    binary64 arithmetic of the comparison. *)
Theorem drain_calls_are_spaced
    (now : float) (v : View) (readings : list float) (t : float) (st : state) :
  log_update_time_interval_s = 0x1.999999999999ap-4%float ∧
  update_log drain t st =
    (if (log_update_time_interval_s <=? t - last_processed_time st)%float
     then State t (drain (view st)) (drain_calls st ++ [t])
     else st) ∧
  spaced now (drain_calls (run drain readings (init now v))) ∧
  last_processed_time (run drain readings (init now v)) =
    default now (last (drain_calls (run drain readings (init now v)))).
Proof.
  split; [reflexivity|]. split; [reflexivity|].
  apply run_inv. by split.
Qed.

End GuiFacts.

(** ** MCU history and config file *)

Section ConfigFacts.
Import Py Config.

(** Claim C9 as stated fails: the MCU is supported and in the history, past
    its tenth entry; the call inserts nothing and the slice drops it. *)
Lemma update_mcu_history_can_drop_mcu :
  ¬ ("STM32F427II" ∈ supported_mcu_list long_history_viewer →
     "STM32F427II" ∈
       mcu_history (_update_mcu_history "STM32F427II" long_history_viewer)).
Proof.
  intros H. assert (Hin : "STM32F427II" ∈ supported_mcu_list long_history_viewer)
    by (apply (bool_decide_unpack _); by vm_compute).
  apply H in Hin. revert Hin. apply (bool_decide_unpack _). by vm_compute.
Qed.

(** Claim C9, as the code has it.  The supported list is never changed.  An
    unsupported MCU leaves the history unchanged.  For a supported one the
    new history is the first ten entries of the old one when the MCU was in
    it, and of the old one with the MCU put in front otherwise; so it has at
    most ten entries, has no duplicates if the old one had none, and
    contains the MCU whenever the MCU was absent before or among the first
    ten entries, in particular whenever the old history had at most ten. *)
Theorem update_mcu_history_spec (mcu : string) (v : viewer) :
  supported_mcu_list (_update_mcu_history mcu v) = supported_mcu_list v ∧
  (mcu ∉ supported_mcu_list v →
   mcu_history (_update_mcu_history mcu v) = mcu_history v) ∧
  (mcu ∈ supported_mcu_list v →
   (mcu ∈ mcu_history v →
    mcu_history (_update_mcu_history mcu v) = take 10 (mcu_history v)) ∧
   (mcu ∉ mcu_history v →
    mcu_history (_update_mcu_history mcu v) = mcu :: take 9 (mcu_history v)) ∧
   length (mcu_history (_update_mcu_history mcu v)) ≤ 10 ∧
   (NoDup (mcu_history v) → NoDup (mcu_history (_update_mcu_history mcu v))) ∧
   (mcu ∉ mcu_history v ∨ mcu ∈ take 10 (mcu_history v) →
    mcu ∈ mcu_history (_update_mcu_history mcu v)) ∧
   (length (mcu_history v) ≤ 10 →
    mcu ∈ mcu_history (_update_mcu_history mcu v))).
Proof.
  unfold _update_mcu_history.
  destruct (decide (mcu ∈ supported_mcu_list v)) as [Hsup|Hsup].
  2:{ rewrite bool_decide_false by done. by split_and!. }
  rewrite bool_decide_true by done. cbn [supported_mcu_list mcu_history].
  split; [done|]. split; [done|]. intros _.
  destruct (decide (mcu ∈ mcu_history v)) as [Hin|Hin].
  - rewrite bool_decide_true by done. split_and!; try done.
    + rewrite length_take. lia.
    + intros Hnd. rewrite <- (take_drop 10 (mcu_history v)) in Hnd.
      by apply NoDup_app in Hnd as [? _].
    + by intros [?|?].
    + intros Hlen. by rewrite take_ge.
  - rewrite bool_decide_false by done. cbn [take]. split_and!; try done.
    + cbn. rewrite length_take. lia.
    + intros Hnd. rewrite <- (take_drop 9 (mcu_history v)) in Hnd.
      apply NoDup_app in Hnd as [Hnd _]. apply NoDup_cons. split; [|done].
      intros Hmcu. apply Hin. eapply subseteq_take, Hmcu.
    + intros _. apply list_elem_of_here.
    + intros _. apply list_elem_of_here.
Qed.

(** A supported MCU that is new to a short history is put in front. *)
Lemma update_mcu_history_spec_witness :
  "STM32F427II" ∈
    mcu_history (_update_mcu_history "STM32F427II"
                   {| supported_mcu_list := ["STM32F103C8"; "STM32F427II"];
                      mcu_history := ["STM32F103C8"] |}).
Proof.
  apply (update_mcu_history_spec "STM32F427II"
           {| supported_mcu_list := ["STM32F103C8"; "STM32F427II"];
              mcu_history := ["STM32F103C8"] |}).
  - apply (bool_decide_unpack _). exact I.
  - cbn. lia.
Defined.

(** Claim C10.  [_load_config] always completes normally.  It returns the
    value [json.load] decoded when the file could be read, was decoded and
    the value is a dict; in every other case (the file cannot be opened or
    read, decoding raises, the value is not a dict) it returns the default
    [{'mcu_history': [], 'last_interface': 'SWD'}]. *)
Theorem load_config_total (open_read : M string) (json_load : string → M json) :
  _load_config open_read json_load =
  inr (match open_read with
       | inl _ =>
         JDict {[ "mcu_history" := JList []; "last_interface" := JStr "SWD" ]}
       | inr f =>
         match json_load f with
         | inr (JDict d) => JDict d
         | _ =>
           JDict {[ "mcu_history" := JList []; "last_interface" := JStr "SWD" ]}
         end
       end).
Proof.
  change (JDict {[ "mcu_history" := JList []; "last_interface" := JStr "SWD" ]})
    with default_config.
  unfold _load_config.
  destruct open_read as [e|f]; [by destruct e|]. cbn [bind try_except].
  destruct (json_load f) as [e|data]; [by destruct e|].
  by destruct data.
Qed.

End ConfigFacts.

(** * Further properties *)

(** ** The drain: cap, progress and flag *)

Section DrainMore.
Import Drain Pipeline.

(** With the worker idle and only append batches queued the loop pops as
    many batches as the cap still allows, or all of them. *)
Lemma drain_while_all_append fuel q l :
  Forall (λ b, append b = true) q →
  count l ≤ max_per_call →
  length q `min` (max_per_call - count l) < fuel →
  drain_while idle fuel q l =
  Some (drop (max_per_call - count l) q,
        {| count := count l + length (take (max_per_call - count l) q);
           highlighted_log_lines :=
             highlighted_log_lines l ++
             segments_of (take (max_per_call - count l) q);
           update_info :=
             from_option Some (update_info l)
                         (last (take (max_per_call - count l) q)) |}).
Proof.
  revert fuel l. induction q as [|a q IH]; intros fuel l Hq Hcap Hfuel;
    (destruct fuel as [|fuel]; [cbn in Hfuel; lia|]);
    rewrite drain_while_S; cbv zeta;
    change (idle (count l)) with (@nil batch); rewrite !app_nil_r.
  { cbn [empty negb andb]. rewrite drop_nil, take_nil. cbn.
    rewrite Nat.add_0_r, app_nil_r. by destruct l. }
  apply Forall_cons in Hq as [Ha Hq]. cbn [empty negb andb get_nowait].
  case_bool_decide as Hlt.
  - rewrite bool_decide_false by congruence.
    rewrite IH by (cbn [count length] in *; done || lia).
    cbn [count highlighted_log_lines update_info].
    replace (max_per_call - count l) with (S (max_per_call - (count l + 1)))
      by lia.
    cbn [drop take length]. unfold segments_of. cbn [fmap list_fmap concat].
    rewrite last_cons, <- app_assoc, <- Nat.add_assoc. cbn [Nat.add].
    by destruct (last _).
  - replace (max_per_call - count l) with 0 by lia. cbn.
    rewrite Nat.add_0_r, app_nil_r. by destruct l.
Qed.

(** With the worker idle and only append batches queued, one drain pops
    the first [max_per_call] batches (all of them if there are fewer), leaves
    the rest queued in order, and hands the renderer their segments as one
    append update; on an empty queue it does nothing. *)
Theorem drain_append_only_takes_first_twenty
    {Renderer : Type} (display_log_update : batch → Renderer → Renderer)
    (q : list batch) (r : Renderer) :
  Forall (λ b, append b = true) q →
  _process_display_output_queue idle display_log_update q r =
  Some (drop 20 q,
        match q with
        | [] => r
        | _ :: _ =>
          display_log_update
            {| highlighted_text_list := segments_of (take 20 q);
               append := true |} r
        end).
Proof.
  intros Hq. unfold _process_display_output_queue.
  rewrite drain_while_all_append
    by (cbn [count init_locals]; done || unfold max_per_call; lia).
  cbn [count init_locals update_info highlighted_log_lines combined_update].
  change (max_per_call - 0) with 20. f_equal. f_equal.
  destruct q as [|a q]; [done|]. apply Forall_cons in Hq as [Ha Hq].
  cbn [take]. rewrite last_cons.
  destruct (last (take 19 q)) as [b|] eqn:Hlast; cbn; [|by rewrite Ha].
  apply last_Some_elem_of, subseteq_take in Hlast.
  by rewrite (proj1 (Forall_forall _ _) Hq b Hlast).
Qed.

(** Twenty-five append batches: twenty are delivered, five stay queued. *)
Lemma drain_append_only_takes_first_twenty_witness :
  _process_display_output_queue idle record_call (replicate 25 batch_x) [] =
  Some (replicate 5 batch_x,
        [ {| highlighted_text_list := replicate 20 ("x", false);
             append := true |} ]).
Proof.
  apply (drain_append_only_takes_first_twenty record_call
           (replicate 25 batch_x) []).
  by apply Forall_replicate.
Defined.

(** Whatever the worker does meanwhile, a drain that finds a batch queued
    delivers exactly one update, and that update starts with the segments of
    the oldest queued batch. *)
Theorem drain_delivers_oldest_batch
    {Renderer : Type} (display_log_update : batch → Renderer → Renderer)
    (puts : nat → list batch) (b : batch) (q : list batch) (r : Renderer) :
  ∃ q' u rest,
    _process_display_output_queue puts display_log_update (b :: q) r =
      Some (q', display_log_update u r) ∧
    highlighted_text_list u = highlighted_text_list b ++ rest.
Proof.
  unfold _process_display_output_queue. rewrite drain_while_S. cbv zeta.
  cbn [app empty negb andb get_nowait count init_locals].
  rewrite bool_decide_true by (unfold max_per_call; lia).
  change (highlighted_log_lines init_locals ++ highlighted_text_list b)
    with (highlighted_text_list b).
  case_bool_decide as Hb.
  { eexists _, _, []. cbn. split; [done|]. by rewrite app_nil_r. }
  destruct (drain_while_terminates puts max_per_call
              (q ++ puts 0)
              {| count := 0 + 1;
                 highlighted_log_lines := highlighted_text_list b;
                 update_info := Some b |}) as [[q' l'] Hrun];
    [cbn [count]; unfold max_per_call; lia|].
  rewrite Hrun.
  apply drain_while_popped in Hrun
    as (popped & m & _ & _ & Hlines & Hlast & _).
  cbn [highlighted_log_lines update_info] in Hlines, Hlast.
  unfold combined_update. rewrite Hlast, Hlines.
  exists q'. destruct (last popped); eexists _, _; cbn; split; done.
Qed.

(** The update a drain delivers is an append update exactly when every
    batch it popped was one; any full refresh among them makes it a full
    refresh. *)
Theorem drain_update_appends_iff_all_append
    (puts : nat → list batch) (q : list batch) :
  ∃ popped m q' l',
    drain_while puts (S max_per_call) q init_locals = Some (q', l') ∧
    q ++ arrived puts 0 m = popped ++ q' ∧
    length popped = count l' ∧
    ∀ u, combined_update l' = Some u →
         (append u = true ↔ Forall (λ a, append a = true) popped).
Proof.
  destruct (drain_terminates puts q) as [[q' l'] Hrun].
  destruct (drain_while_popped _ _ _ _ _ _ Hrun)
    as (popped & m & Hstream & Hcount & _ & Hlast & Hstop & _).
  exists popped, m, q', l'. split_and!; auto.
  intros u. unfold combined_update. rewrite Hlast. cbn [update_info init_locals].
  destruct (last popped) as [c|] eqn:Hc; cbn; [|done].
  intros [= <-]. cbn [append].
  apply last_Some in Hc as [pre ->]. split.
  - intros Hc. apply Forall_app. split; [|by repeat constructor].
    apply Forall_forall. intros a Ha.
    apply list_elem_of_split in Ha as (l1 & l2 & ->).
    destruct (append a) eqn:Happ; [done|].
    specialize (Hstop l1 a (l2 ++ [c])). rewrite <- app_assoc in Hstop.
    specialize (Hstop eq_refl Happ). by destruct l2.
  - intros Hall. apply Forall_app in Hall as [_ Hall].
    by apply Forall_cons in Hall as [? _].
Qed.

(** With [x] and [y] queued the update delivered is an append update. *)
Lemma drain_update_appends_iff_all_append_witness :
  ∃ u, combined_update
         {| count := 2;
            highlighted_log_lines := [("x", false); ("y", false)];
            update_info := Some batch_y |} = Some u ∧ append u = true.
Proof.
  destruct (drain_update_appends_iff_all_append idle [batch_x; batch_y])
    as (popped & m & q' & l' & Hrun & _ & _ & Hflag).
  vm_compute in Hrun. injection Hrun as <- <-.
  eexists. split; reflexivity.
Defined.

Lemma segments_of_app bs1 bs2 :
  segments_of (bs1 ++ bs2) = segments_of bs1 ++ segments_of bs2.
Proof. unfold segments_of. by rewrite fmap_app, concat_app. Qed.

End DrainMore.

(** ** The worker: unrelated keys *)

Section WorkerMore.
Import Py Worker.

Context {Handler : Type}.
Variable process :
  string → option string → option string → option string →
  Handler → M Drain.batch * Handler.

(** A key other than the four the worker reads does not change what an
    item does: the GUI loop puts items that carry ["mcu_string"], and they
    are handled like the item without it. *)
Theorem worker_ignores_other_keys
    (k v : string) (i : item) (in_q : list item)
    (out : list Drain.batch) (h : Handler) :
  k ≠ "line" → k ≠ "filter_string" →
  k ≠ "highlight_string" → k ≠ "pause_string" →
  iteration process (State (<[k:=v]> i :: in_q) out h) =
  iteration process (State (i :: in_q) out h).
Proof.
  intros H1 H2 H3 H4. rewrite !iteration_item.
  unfold process_item, arguments. by rewrite !lookup_insert_ne by done.
Qed.

End WorkerMore.

(** An item with only ["mcu_string"] is handled like the empty item: the
    handler is called with [""] and three [None]. *)
Lemma worker_ignores_other_keys_witness :
  Worker.iteration
    (λ line f hl p (h : unit), (inr (Drain.Batch [(line, false)] true), h))
    (Worker.State [ {["mcu_string" := "STM"]} ] [] ()) =
  (inr (), Worker.State [] [Drain.Batch [("", false)] true] ()).
Proof.
  change ({["mcu_string" := "STM"]} : gmap string string)
    with (<["mcu_string" := "STM"]> (∅ : gmap string string)).
  rewrite (worker_ignores_other_keys _ "mcu_string" "STM" ∅ [] [] ());
    [reflexivity|done..].
Defined.


(** ** The GUI loop: what the drain calls do to the view *)

Section GuiMore.
Import Gui.

Context {View : Type}.
Variable drain : View → View.

Lemma run_calls_view readings (st : state) :
  ∃ calls,
    drain_calls (run drain readings st) = drain_calls st ++ calls ∧
    sublist calls readings ∧
    view (run drain readings st) = Nat.iter (length calls) drain (view st).
Proof.
  revert st. induction readings as [|t readings IH]; intros st.
  { exists []. by rewrite app_nil_r. }
  cbn [run]. destruct (IH (update_log drain t st)) as (calls & -> & Hsub & ->).
  unfold update_log.
  destruct (log_update_time_interval_s <=? t - last_processed_time st)%float.
  - exists (t :: calls). cbn [drain_calls view]. split_and!.
    + by rewrite <- app_assoc.
    + by apply sublist_skip.
    + cbn [length]. by rewrite Nat.iter_succ_r.
  - exists calls. split_and!; [done| |done]. by apply sublist_cons.
Qed.

(** Over a run of the GUI loop the readings at which the drain was called
    are a subsequence of the loop's readings, so there are at most as many
    drains as iterations, and the view is the initial one with the drain
    applied once per recorded call: nothing else in the time gate touches
    it. *)
Theorem run_drains_once_per_call
    (now : float) (v : View) (readings : list float) :
  sublist (drain_calls (run drain readings (init now v))) readings ∧
  length (drain_calls (run drain readings (init now v))) ≤ length readings ∧
  view (run drain readings (init now v)) =
    Nat.iter (length (drain_calls (run drain readings (init now v)))) drain v.
Proof.
  destruct (run_calls_view readings (init now v)) as (calls & Hc & Hsub & Hv).
  cbn [drain_calls init app] in Hc. rewrite Hc, Hv.
  split_and!; [done| |done]. by apply sublist_length.
Qed.

End GuiMore.

(** ** The MCU history over successive connects, and the combo box *)

Section McuMore.
Import Config Mcu.

(** Selecting the same MCU again changes nothing, once the history has at
    most ten entries. *)
Theorem update_mcu_history_idempotent (mcu : string) (v : viewer) :
  length (mcu_history v) ≤ 10 →
  _update_mcu_history mcu (_update_mcu_history mcu v) =
  _update_mcu_history mcu v.
Proof.
  intros Hlen. unfold _update_mcu_history at 2 3.
  case_bool_decide as Hsup; [|unfold _update_mcu_history;
                               by rewrite bool_decide_false].
  unfold _update_mcu_history. cbn [supported_mcu_list mcu_history].
  rewrite (bool_decide_true _ Hsup).
  case_bool_decide as Hin.
  - by rewrite take_take.
  - destruct Hin. case_bool_decide as Hold.
    + by rewrite take_ge by lia.
    + apply list_elem_of_here.
Qed.

Lemma update_mcu_history_idempotent_witness :
  _update_mcu_history "STM32F427II"
    (_update_mcu_history "STM32F427II"
       {| supported_mcu_list := ["STM32F103C8"; "STM32F427II"];
          mcu_history := ["STM32F103C8"] |}) =
  {| supported_mcu_list := ["STM32F103C8"; "STM32F427II"];
     mcu_history := ["STM32F427II"; "STM32F103C8"] |}.
Proof.
  rewrite update_mcu_history_idempotent; [reflexivity|cbn; lia].
Defined.

Lemma update_step (mcu : string) (v : viewer) :
  supported_mcu_list (_update_mcu_history mcu v) = supported_mcu_list v ∧
  (length (mcu_history v) ≤ 10 →
   length (mcu_history (_update_mcu_history mcu v)) ≤ 10) ∧
  (NoDup (mcu_history v) → NoDup (mcu_history (_update_mcu_history mcu v))) ∧
  (∀ m, m ∈ mcu_history (_update_mcu_history mcu v) →
        m ∈ mcu_history v ∨ m = mcu ∧ mcu ∈ supported_mcu_list v) ∧
  (length (mcu_history v) ≤ 10 → mcu ∈ supported_mcu_list v →
   mcu ∈ mcu_history (_update_mcu_history mcu v)).
Proof.
  unfold _update_mcu_history.
  case_bool_decide as Hsup; [|by split_and!; auto].
  cbn [supported_mcu_list mcu_history].
  case_bool_decide as Hin.
  - split_and!; auto.
    + intros _. rewrite length_take. lia.
    + intros Hnd. rewrite <- (take_drop 10 (mcu_history v)) in Hnd.
      by apply NoDup_app in Hnd as [? _].
    + intros m Hm. left. eapply subseteq_take, Hm.
    + intros Hlen _. by rewrite take_ge.
  - cbn [take]. split_and!; auto.
    + intros _. cbn. rewrite length_take. lia.
    + intros Hnd. rewrite <- (take_drop 9 (mcu_history v)) in Hnd.
      apply NoDup_app in Hnd as [Hnd _]. apply NoDup_cons. split; [|done].
      intros Hmcu. apply Hin. eapply subseteq_take, Hmcu.
    + intros m [->|Hm]%elem_of_cons; [by right|].
      left. eapply subseteq_take, Hm.
    + intros _ _. apply list_elem_of_here.
Qed.

Lemma update_all_snoc mcus mcu v :
  update_all (mcus ++ [mcu]) v = _update_mcu_history mcu (update_all mcus v).
Proof. unfold update_all. by rewrite foldl_app. Qed.

Lemma update_all_inv (mcus : list string) (v : viewer) :
  length (mcu_history v) ≤ 10 → NoDup (mcu_history v) →
  supported_mcu_list (update_all mcus v) = supported_mcu_list v ∧
  length (mcu_history (update_all mcus v)) ≤ 10 ∧
  NoDup (mcu_history (update_all mcus v)) ∧
  (∀ m, m ∈ mcu_history (update_all mcus v) →
        m ∈ mcu_history v ∨ m ∈ mcus ∧ m ∈ supported_mcu_list v).
Proof.
  intros Hlen Hnd. induction mcus as [|mcu mcus IH] using rev_ind.
  { by split_and!; auto. }
  destruct IH as (Hsup & Hlen' & Hnd' & Hent).
  rewrite update_all_snoc.
  destruct (update_step mcu (update_all mcus v))
    as (Hs & Hl & Hn & He & _).
  split_and!; [congruence|auto..|].
  intros m [Hm|[-> Hm]]%He.
  - destruct (Hent m Hm) as [?|[? ?]]; [by left|right].
    split; [|done]. apply elem_of_app. by left.
  - right. rewrite <- Hsup. split; [|done]. apply elem_of_app. right.
    apply list_elem_of_here.
Qed.

(** Starting from a history of at most ten distinct entries (as every
    history this code has saved is), any sequence of connects keeps it so;
    the supported list is never changed; every entry of the history is an
    old entry or a supported MCU that was selected; and the supported MCU
    selected last is in it. *)
Theorem mcu_history_stays_short_and_distinct (mcus : list string) (v : viewer) :
  length (mcu_history v) ≤ 10 → NoDup (mcu_history v) →
  supported_mcu_list (update_all mcus v) = supported_mcu_list v ∧
  length (mcu_history (update_all mcus v)) ≤ 10 ∧
  NoDup (mcu_history (update_all mcus v)) ∧
  (∀ m, m ∈ mcu_history (update_all mcus v) →
        m ∈ mcu_history v ∨ m ∈ mcus ∧ m ∈ supported_mcu_list v) ∧
  (∀ mcu, last mcus = Some mcu → mcu ∈ supported_mcu_list v →
          mcu ∈ mcu_history (update_all mcus v)).
Proof.
  intros Hlen Hnd.
  destruct (update_all_inv mcus v Hlen Hnd) as (Hsup & Hlen' & Hnd' & Hent).
  split_and!; [done..|].
  intros mcu [ms ->]%last_Some Hmcu. rewrite update_all_snoc.
  destruct (update_all_inv ms v Hlen Hnd) as (Hs & Hl & _ & _).
  apply update_step; [done|by rewrite Hs].
Qed.

(** Eleven connects to eleven different supported MCUs: ten remain, the
    one selected last in front. *)
Lemma mcu_history_stays_short_and_distinct_witness :
  length (mcu_history
            (update_all ["A"; "B"; "C"; "D"; "E"; "F"; "G"; "H"; "I"; "J"; "K"]
               {| supported_mcu_list :=
                    ["A"; "B"; "C"; "D"; "E"; "F"; "G"; "H"; "I"; "J"; "K"];
                  mcu_history := [] |})) ≤ 10.
Proof.
  apply (mcu_history_stays_short_and_distinct
           ["A"; "B"; "C"; "D"; "E"; "F"; "G"; "H"; "I"; "J"; "K"]
           {| supported_mcu_list :=
                ["A"; "B"; "C"; "D"; "E"; "F"; "G"; "H"; "I"; "J"; "K"];
              mcu_history := [] |}).
  - cbn. lia.
  - constructor.
Defined.

(** The combo box lists every supported MCU and every history entry, and
    nothing but these and the two headers; the history header is there
    exactly when the history is not empty. *)
Theorem combo_values_cover_history_and_supported (v : viewer) (m : string) :
  (m ∈ _build_mcu_combo_values v ↔
   m ∈ mcu_history v ∨ m ∈ supported_mcu_list v ∨ m = "--- All ---" ∨
   m = "--- Last used ---" ∧ mcu_history v ≠ []) ∧
  length (_build_mcu_combo_values v) =
    (if bool_decide (mcu_history v ≠ []) then S (length (mcu_history v)) else 0)
    + S (length (supported_mcu_list v)).
Proof.
  unfold _build_mcu_combo_values. cbv zeta.
  case_bool_decide as Hh.
  - split.
    + rewrite !elem_of_app, !elem_of_cons, !elem_of_nil. tauto.
    + rewrite !length_app. cbn. lia.
  - assert (mcu_history v = []) as ->
      by (destruct (mcu_history v); [done|by destruct Hh]).
    split; [|by rewrite !length_app].
    rewrite !elem_of_app, !elem_of_cons, !elem_of_nil. tauto.
Qed.

(** After a connect to a supported MCU, with a history of at most ten
    entries, the combo box shows the history header, then the history, which
    contains that MCU, then the header and list of all supported MCUs. *)
Theorem combo_values_after_connect (mcu : string) (v : viewer) :
  mcu ∈ supported_mcu_list v →
  length (mcu_history v) ≤ 10 →
  mcu ∈ mcu_history (_update_mcu_history mcu v) ∧
  _build_mcu_combo_values (_update_mcu_history mcu v) =
    "--- Last used ---" :: mcu_history (_update_mcu_history mcu v) ++
    "--- All ---" :: supported_mcu_list v.
Proof.
  intros Hsup Hlen.
  destruct (update_step mcu v) as (Hs & _ & _ & _ & Hin).
  specialize (Hin Hlen Hsup). split; [done|].
  unfold _build_mcu_combo_values. cbv zeta. rewrite Hs.
  rewrite bool_decide_true; [by rewrite <- !app_assoc|].
  intros Hnil. rewrite Hnil in Hin. by apply elem_of_nil in Hin.
Qed.

Lemma combo_values_after_connect_witness :
  _build_mcu_combo_values
    (_update_mcu_history "STM32F427II"
       {| supported_mcu_list := ["STM32F103C8"; "STM32F427II"];
          mcu_history := [] |}) =
  ["--- Last used ---"; "STM32F427II";
   "--- All ---"; "STM32F103C8"; "STM32F427II"].
Proof.
  apply (combo_values_after_connect "STM32F427II"
           {| supported_mcu_list := ["STM32F103C8"; "STM32F427II"];
              mcu_history := [] |}).
  - apply (bool_decide_unpack _). exact I.
  - cbn. lia.
Defined.

End McuMore.

(** ** The configuration file across a restart *)

Section PersistMore.
Import Py Config Persist.

Variable json_dump : json → string.
Variable json_load : string → M json.

(** Start-up never fails on account of the config file.  It takes the
    history and the interface from the file when the file decodes to a dict,
    with [[]] and ['SWD'] for a key the dict lacks, and takes [[]] and ['SWD']
    when the file is missing, cannot be decoded or holds another value. *)
Theorem init_config_never_fails (file : option string) :
  init_config json_load file =
  inr (match file with
       | None => (JList [], JStr "SWD")
       | Some content =>
         match json_load content with
         | inr (JDict d) =>
           (default (JList []) (d !! "mcu_history"),
            default (JStr "SWD") (d !! "last_interface"))
         | _ => (JList [], JStr "SWD")
         end
       end).
Proof.
  unfold init_config, _load_config, open_r.
  destruct file as [content|]; [|reflexivity]. cbn [bind ret try_except].
  destruct (json_load content) as [e|data]; [by destruct e|].
  by destruct data.
Qed.

(** Saving never raises, whatever goes wrong.  The file afterwards is the
    dumped config when it was opened and written; the file as it was when it
    could not be opened; and whatever the failed write left of it when the
    write raised after the file was opened. *)
Theorem save_config_never_raises
    (open_w : M unit) (write : option (exn * string))
    (s : settings) (file : option string) :
  _save_config json_dump open_w write s file =
  (inr (),
   match open_w, write with
   | inl _, _ => file
   | inr _, Some (_, partial) => Some partial
   | inr _, None => Some (json_dump (config_of s))
   end).
Proof.
  unfold _save_config.
  destruct open_w as [e|[]]; [by destruct e|].
  destruct write as [[e partial]|]; [by destruct e|done].
Qed.

(** What was saved is what the next start-up reads, provided [json.load]
    decodes what [json.dump] wrote for this config: the history and the
    interface come back as they were. *)
Theorem save_then_init_round_trip (s : settings) (file : option string) :
  json_load (json_dump (config_of s)) = inr (config_of s) →
  ∃ file',
    _save_config json_dump (inr ()) None s file = (inr (), file') ∧
    init_config json_load file' =
    inr (JList (JStr <$> s_mcu_history s), JStr (s_last_interface s)).
Proof.
  intros Hrt. eexists. split; [reflexivity|].
  unfold init_config, _load_config, open_r. cbn [bind ret try_except].
  rewrite Hrt. cbn. unfold config_of. by simplify_map_eq.
Qed.

End PersistMore.

(** A history and an interface written as one line of text and decoded by
    a [json.load] that knows that one line. *)
Lemma save_then_init_round_trip_witness :
  ∃ file',
    Persist._save_config (λ _, "cfg") (inr ()) None
      (Persist.Settings ["STM32F427II"] "JTAG") None = (inr (), file') ∧
    Persist.init_config
      (λ _, inr (Persist.config_of (Persist.Settings ["STM32F427II"] "JTAG")))
      file' =
    inr (Config.JList [Config.JStr "STM32F427II"], Config.JStr "JTAG").
Proof.
  apply (save_then_init_round_trip (λ _, "cfg")
           (λ _, inr (Persist.config_of (Persist.Settings ["STM32F427II"] "JTAG")))
           (Persist.Settings ["STM32F427II"] "JTAG") None).
  reflexivity.
Defined.

(** ** The GUI events *)

Section EventsMore.
Import Py Config Mcu Persist Events.

Context {Ext : Type}.
Variable connect : string → string → Ext → M bool * Ext.
Variable disconnect : Ext → M unit * Ext.
Variable clear : Ext → M unit * Ext.
Variable popup_get_file : Ext → M (option string) * Ext.
Variable write_log : string → Ext → M unit * Ext.
Variable json_dump : json → string.
Variable str : exn → string.

#[local] Abbreviation handle_events :=
  (Events.handle_events connect disconnect clear popup_get_file write_log
     json_dump str).
#[local] Abbreviation handle_all :=
  (Events.handle_all connect disconnect clear popup_get_file write_log
     json_dump str).

(** Saving touches only the config file. *)
Lemma save_config_file (open_w : M unit) (write : option (exn * string))
    (s : viewer (Ext:=Ext)) :
  ∃ file,
    save_config json_dump open_w write s =
    {| supported_mcu_list := supported_mcu_list s;
       mcu_history := mcu_history s;
       last_interface := last_interface s;
       current_mcu := current_mcu s;
       mcu_filter_string := mcu_filter_string s;
       mcu_list_last_update_time := mcu_list_last_update_time s;
       filter_input_string := filter_input_string s;
       highlight_input_string := highlight_input_string s;
       log_processing_input_queue := log_processing_input_queue s;
       win := win s;
       config_file := file;
       popup_errors := popup_errors s;
       ext := ext s |} ∧
    (open_w = inr () → write = None →
     file = Some (json_dump (config_of (Settings (mcu_history s)
                                                 (last_interface s))))).
Proof.
  unfold save_config, _save_config.
  destruct open_w as [e|[]]; [|destruct write as [[e partial]|]];
    cbn; eexists; (split; [reflexivity|]); intros; by simplify_eq.
Qed.

(** [_update_mcu_history] with its save and its combo update changes the
    history, the config file and the combo values, nothing else. *)
Lemma update_mcu_history_fields (open_w : M unit)
    (write : option (exn * string)) (mcu : string) (s : viewer (Ext:=Ext)) :
  let s' := update_mcu_history json_dump open_w write mcu s in
  supported_mcu_list s' = supported_mcu_list s ∧
  mcu_history s' =
    Config.mcu_history
      (Config._update_mcu_history mcu
         (Config.Viewer (supported_mcu_list s) (mcu_history s))) ∧
  last_interface s' = last_interface s ∧
  current_mcu s' = current_mcu s ∧
  log_processing_input_queue s' = log_processing_input_queue s ∧
  popup_errors s' = popup_errors s ∧
  ext s' = ext s ∧
  w_MCU_value (win s') = w_MCU_value (win s) ∧
  w_INTERFACE_value (win s') = w_INTERFACE_value (win s) ∧
  w_PAUSE_text (win s') = w_PAUSE_text (win s) ∧
  w_STATUS (win s') = w_STATUS (win s) ∧
  w_CONNECT_disabled (win s') = w_CONNECT_disabled (win s) ∧
  w_DISCONNECT_disabled (win s') = w_DISCONNECT_disabled (win s).
Proof.
  cbv zeta. unfold update_mcu_history, Config._update_mcu_history.
  cbn [Config.supported_mcu_list Config.mcu_history].
  case_bool_decide; [|by split_and!].
  match goal with
  | |- context [save_config json_dump open_w write ?t] =>
    destruct (save_config_file open_w write t) as (file & -> & _)
  end.
  by split_and!.
Qed.

(** The state a connect has reached when [connect] is called, and what
    the branch does with the outcome. *)
Lemma connect_block_spec (e : env) (s : viewer (Ext:=Ext)) :
  ∃ reached,
    connect_block connect json_dump e s =
      (let '(connected, x) :=
         connect (w_MCU_value (win s)) (w_INTERFACE_value (win s)) (ext s) in
       (match connected with
        | inl exc => inl exc
        | inr c =>
          inr (if c then _update_gui_status true (set_ext x reached)
               else set_ext x reached)
        end, set_ext x reached)) ∧
    supported_mcu_list reached = supported_mcu_list s ∧
    mcu_history reached =
      Config.mcu_history
        (Config._update_mcu_history (w_MCU_value (win s))
           (Config.Viewer (supported_mcu_list s) (mcu_history s))) ∧
    last_interface reached = w_INTERFACE_value (win s) ∧
    current_mcu reached = current_mcu s ∧
    log_processing_input_queue reached = log_processing_input_queue s ∧
    popup_errors reached = popup_errors s ∧
    w_STATUS (win reached) = w_STATUS (win s) ∧
    w_CONNECT_disabled (win reached) = w_CONNECT_disabled (win s) ∧
    w_DISCONNECT_disabled (win reached) = w_DISCONNECT_disabled (win s) ∧
    (open_w2 e = inr () → write2 e = None →
     config_file reached =
       Some (json_dump (config_of (Settings (mcu_history reached)
                                            (last_interface reached))))).
Proof.
  unfold connect_block. cbv zeta.
  destruct (update_mcu_history_fields (open_w1 e) (write1 e)
              (w_MCU_value (win s)) s)
    as (Hsup & Hhist & Hitf & Hcur & Hq & Hpop & Hext & Hmcu & Hiv & _ &
        Hst & Hcd & Hdd).
  cbv zeta in *.
  set (s1 := update_mcu_history json_dump (open_w1 e) (write1 e)
                                (w_MCU_value (win s)) s) in *.
  destruct (save_config_file (open_w2 e) (write2 e)
              (set_last_interface (w_INTERFACE_value (win s1)) s1))
    as (file & -> & Hfile).
  cbn [ext set_last_interface] in *. rewrite Hext, Hiv.
  eexists. split.
  { destruct (connect _ _ _) as [[exc|c] x]; cbn [bind ret]; reflexivity. }
  cbn. split_and!; try done.
  intros Hw Hwr. by rewrite (Hfile Hw Hwr), Hiv.
Qed.

#[local] Ltac plain_branch :=
  eexists _, _; (split; [reflexivity|]); cbn; split_and!; auto; done.

(** What every single event keeps, and where an exception can come from. *)
Lemma handle_events_step (e : env) (event : option string) (vals : values)
    (s : viewer (Ext:=Ext)) :
  ∃ r s',
    handle_events e event vals s = (r, s') ∧
    (event = None → r = inr false ∧ s' = s) ∧
    (event ≠ None → r ≠ inr false) ∧
    (∀ exc, r = inl exc →
            event = Some "-DISCONNECT-" ∨ event = Some "-CLEAR-" ∨
            event = Some "-SAVE-") ∧
    supported_mcu_list s' = supported_mcu_list s ∧
    (∀ m, current_mcu s' = Some m →
          current_mcu s = Some m ∨ m ∈ supported_mcu_list s) ∧
    (buttons_agree (win s) → buttons_agree (win s')).
Proof.
  destruct event as [ev|]; [|exists (inr false), s; split_and!; auto; done].
  unfold Events.handle_events.
  case_bool_decide.
  { case_bool_decide; eexists _, _; (split; [reflexivity|]); cbn;
      split_and!; try done; intros m [= <-]; auto. }
  case_bool_decide; [plain_branch|].
  case_bool_decide.
  { destruct (connect_block_spec e s)
      as (reached & -> & Hsup & _ & _ & Hcur & _ & _ & Hst & Hcd & Hdd & _).
    destruct (connect _ _ _) as [[exc|[|]] x]; [destruct exc|..];
      cbn [isinstance_Exception];
      eexists _, _; (split; [reflexivity|]); cbn;
      (split_and!; [done|done|done|done|by rewrite Hcur; auto|]);
      unfold buttons_agree; cbn; rewrite ?Hst, ?Hcd, ?Hdd; tauto. }
  case_bool_decide.
  { subst ev. destruct (disconnect (ext s)) as [[exc|[]] x];
      eexists _, _; (split; [reflexivity|]); cbn; split_and!; auto; done. }
  case_bool_decide.
  { subst ev. destruct (clear (ext s)) as [[exc|[]] x];
      eexists _, _; (split; [reflexivity|]); cbn; split_and!; auto; done. }
  case_bool_decide.
  { subst ev. destruct (popup_get_file (ext s)) as [[exc|[path|]] x];
      [eexists _, _; (split; [reflexivity|]); cbn; split_and!; auto; done|
       |eexists _, _; (split; [reflexivity|]); cbn; split_and!; auto; done].
    case_bool_decide;
      [eexists _, _; (split; [reflexivity|]); cbn; split_and!; auto; done|].
    cbn [ext set_ext].
    destruct (write_log path x) as [[exc|[]] x']; [destruct exc|];
      cbn [isinstance_Exception];
      eexists _, _; (split; [reflexivity|]); cbn; split_and!; auto; done. }
  case_bool_decide; [plain_branch|].
  case_bool_decide; [plain_branch|].
  case_bool_decide; plain_branch.
Qed.

Lemma handle_all_inv (evs : list (env * option string * values))
    (s : viewer (Ext:=Ext)) :
  ∃ r s',
    handle_all evs s = (r, s') ∧
    supported_mcu_list s' = supported_mcu_list s ∧
    (∀ m, current_mcu s' = Some m →
          current_mcu s = Some m ∨ m ∈ supported_mcu_list s) ∧
    (buttons_agree (win s) → buttons_agree (win s')).
Proof.
  revert s. induction evs as [|[[e event] vals] evs IH]; intros s.
  { exists (inr ()), s. by split_and!; auto. }
  cbn [Events.handle_all].
  destruct (handle_events_step e event vals s)
    as (r1 & s1 & -> & _ & _ & _ & Hsup & Hcur & Hbtn).
  destruct r1 as [exc|[|]]; [by exists (inl exc), s1| |by exists (inr ()), s1].
  destruct (IH s1) as (r & s' & -> & Hsup' & Hcur' & Hbtn').
  exists r, s'. split_and!; [done|congruence| |auto].
  intros m [Hm|Hm]%Hcur'; [auto|]. right. by rewrite <- Hsup.
Qed.


(** Over any sequence of events, however it ends, the supported list is
    never changed and [current_mcu], once set, is a supported MCU: a
    selection that is not in the list is never stored. *)
Theorem current_mcu_is_supported
    (evs : list (env * option string * values)) (s : viewer (Ext:=Ext)) :
  current_mcu s = None →
  ∃ r s',
    handle_all evs s = (r, s') ∧
    supported_mcu_list s' = supported_mcu_list s ∧
    ∀ m, current_mcu s' = Some m → m ∈ supported_mcu_list s'.
Proof.
  intros Hnone.
  destruct (handle_all_inv evs s) as (r & s' & Hs' & Hsup & Hcur & _).
  exists r, s'. split_and!; [done..|].
  intros m [Hm|Hm]%Hcur; [congruence|by rewrite Hsup].
Qed.

(** Over any sequence of events, however it ends, the status line and the
    two buttons stay in agreement: exactly one of Connect and Disconnect is
    enabled, and the status reads "Connected" exactly when it is
    Disconnect. *)
Theorem status_and_buttons_agree
    (evs : list (env * option string * values)) (s : viewer (Ext:=Ext)) :
  buttons_agree (win s) →
  ∃ r s', handle_all evs s = (r, s') ∧ buttons_agree (win s').
Proof.
  intros Hbtn.
  destruct (handle_all_inv evs s) as (r & s' & Hs' & _ & _ & Hbtn'). eauto.
Qed.

(** Two presses of the pause button restore its text and put two items on
    the ingestion queue: first the other text, then the text the button
    shows again; so the last item always names the text now shown. *)
Theorem pause_twice_restores_button
    (e1 e2 : env) (v1 v2 : values) (s : viewer (Ext:=Ext)) :
  w_PAUSE_text (win s) = "Pause" ∨ w_PAUSE_text (win s) = "Unpause" →
  ∃ s',
    handle_all [(e1, Some "-PAUSE-", v1); (e2, Some "-PAUSE-", v2)] s =
      (inr (), s') ∧
    w_PAUSE_text (win s') = w_PAUSE_text (win s) ∧
    log_processing_input_queue s' =
      log_processing_input_queue s ++
      [ {["pause_string" :=
            if bool_decide (w_PAUSE_text (win s) = "Pause")
            then "Unpause" else "Pause"]};
        {["pause_string" := w_PAUSE_text (win s)]} ] ∧
    mcu_history s' = mcu_history s ∧
    ext s' = ext s.
Proof.
  intros [Ht|Ht]; eexists; (split; [reflexivity|]); cbn; rewrite Ht; cbn;
    by rewrite <- app_assoc.
Qed.

(** A connect records the selected MCU and interface before it connects:
    whether [connect] succeeds, refuses or raises, the call returns [True],
    the history is the one [_update_mcu_history] gives for the selected MCU,
    [last_interface] is the selected interface, and the config file holds
    both when the second save could open and write it.  The status turns to
    connected exactly when [connect] returned true; when it raised, the
    message is shown in an error popup. *)
Theorem connect_records_selection (e : env) (vals : values)
    (s : viewer (Ext:=Ext)) :
  ∃ s',
    handle_events e (Some "-CONNECT-") vals s = (inr true, s') ∧
    mcu_history s' =
      Config.mcu_history
        (Config._update_mcu_history (w_MCU_value (win s))
           (Config.Viewer (supported_mcu_list s) (mcu_history s))) ∧
    last_interface s' = w_INTERFACE_value (win s) ∧
    (open_w2 e = inr () → write2 e = None →
     config_file s' =
       Some (json_dump (config_of (Settings (mcu_history s')
                                            (last_interface s'))))) ∧
    ext s' =
      (connect (w_MCU_value (win s)) (w_INTERFACE_value (win s)) (ext s)).2 ∧
    match (connect (w_MCU_value (win s)) (w_INTERFACE_value (win s))
                   (ext s)).1 with
    | inr true =>
      w_STATUS (win s') = "Status: Connected" ∧
      w_CONNECT_disabled (win s') = true ∧
      w_DISCONNECT_disabled (win s') = false ∧
      popup_errors s' = popup_errors s
    | inr false =>
      w_STATUS (win s') = w_STATUS (win s) ∧
      w_CONNECT_disabled (win s') = w_CONNECT_disabled (win s) ∧
      w_DISCONNECT_disabled (win s') = w_DISCONNECT_disabled (win s) ∧
      popup_errors s' = popup_errors s
    | inl exc =>
      w_STATUS (win s') = w_STATUS (win s) ∧
      w_CONNECT_disabled (win s') = w_CONNECT_disabled (win s) ∧
      w_DISCONNECT_disabled (win s') = w_DISCONNECT_disabled (win s) ∧
      popup_errors s' = popup_errors s ++ [str exc]
    end.
Proof.
  unfold Events.handle_events.
  rewrite (bool_decide_false ("-CONNECT-" = "-MCU-")) by done.
  rewrite (bool_decide_false ("-CONNECT-" = "-MCU-KEYRELEASE-")) by done.
  rewrite (bool_decide_true ("-CONNECT-" = "-CONNECT-")) by done.
  destruct (connect_block_spec e s)
    as (reached & -> & _ & Hhist & Hitf & _ & _ & Hpop & Hst & Hcd & Hdd
        & Hfile).
  destruct (connect _ _ _) as [[exc|[|]] x]; [destruct exc|..];
    cbn [isinstance_Exception fst snd];
    eexists; (split; [reflexivity|]); cbn;
    rewrite ?Hhist, ?Hitf, ?Hpop, ?Hst, ?Hcd, ?Hdd;
    (split_and!; try done);
    intros Hw Hwr; rewrite (Hfile Hw Hwr); by rewrite Hhist, Hitf.
Qed.

End EventsMore.


(** Selecting a supported MCU and then typing an unknown name. *)
Lemma current_mcu_is_supported_witness :
  ∃ r s',
    Events.handle_all (λ _ _ x, (inr true, x)) (λ x, (inr (), x))
      (λ x, (inr (), x)) (λ x, (inr None, x)) (λ _ x, (inr (), x))
      (λ _, "cfg") (λ _, "error")
      [(Events.writable, Some "-MCU-", Events.Values "STM32F427II" "" "");
       (Events.writable, Some "-MCU-", Events.Values "NO_SUCH_MCU" "" "")]
      Events.start_viewer = (r, s') ∧
    Events.supported_mcu_list s' =
      Events.supported_mcu_list Events.start_viewer ∧
    ∀ m, Events.current_mcu s' = Some m → m ∈ Events.supported_mcu_list s'.
Proof.
  apply (current_mcu_is_supported (λ _ _ x, (inr true, x)) (λ x, (inr (), x))
           (λ x, (inr (), x)) (λ x, (inr None, x)) (λ _ x, (inr (), x))
           (λ _, "cfg") (λ _, "error")).
  reflexivity.
Defined.

(** A connect that succeeds followed by a disconnect. *)
Lemma status_and_buttons_agree_witness :
  ∃ r s',
    Events.handle_all (λ _ _ x, (inr true, x)) (λ x, (inr (), x))
      (λ x, (inr (), x)) (λ x, (inr None, x)) (λ _ x, (inr (), x))
      (λ _, "cfg") (λ _, "error")
      [(Events.writable, Some "-CONNECT-", Events.Values "" "" "");
       (Events.writable, Some "-DISCONNECT-", Events.Values "" "" "")]
      Events.start_viewer = (r, s') ∧
    Events.buttons_agree (Events.win s').
Proof.
  apply (status_and_buttons_agree (λ _ _ x, (inr true, x)) (λ x, (inr (), x))
           (λ x, (inr (), x)) (λ x, (inr None, x)) (λ _ x, (inr (), x))
           (λ _, "cfg") (λ _, "error")).
  split; reflexivity.
Defined.

(** Pause and unpause from the start state. *)
Lemma pause_twice_restores_button_witness :
  ∃ s',
    Events.handle_all (λ _ _ x, (inr true, x)) (λ x, (inr (), x))
      (λ x, (inr (), x)) (λ x, (inr None, x)) (λ _ x, (inr (), x))
      (λ _, "cfg") (λ _, "error")
      [(Events.writable, Some "-PAUSE-", Events.Values "" "" "");
       (Events.writable, Some "-PAUSE-", Events.Values "" "" "")]
      Events.start_viewer = (inr (), s') ∧
    Events.w_PAUSE_text (Events.win s') = "Pause" ∧
    Events.log_processing_input_queue s' =
      [ {["pause_string" := "Unpause"]}; {["pause_string" := "Pause"]} ].
Proof.
  destruct (pause_twice_restores_button (λ _ _ x, (inr true, x))
              (λ x, (inr (), x)) (λ x, (inr (), x)) (λ x, (inr None, x))
              (λ _ x, (inr (), x)) (λ _, "cfg") (λ _, "error")
              Events.writable Events.writable
              (Events.Values "" "" "") (Events.Values "" "" "")
              Events.start_viewer)
    as (s' & Hs' & Htext & Hq & _); [by left|].
  exists s'. split_and!; [exact Hs'|exact Htext|exact Hq].
Defined.

(** A connect that raises: the MCU and the interface are recorded and
    saved all the same. *)
Lemma connect_records_selection_witness :
  ∃ s',
    Events.handle_events (λ _ _ x, (inl (Py.OSError "no probe"), x))
      (λ x, (inr (), x)) (λ x, (inr (), x)) (λ x, (inr None, x))
      (λ _ x, (inr (), x)) (λ _, "cfg") (λ _, "error")
      Events.writable (Some "-CONNECT-") (Events.Values "" "" "")
      Events.start_viewer = (inr true, s') ∧
    Events.mcu_history s' = ["STM32F427II"] ∧
    Events.config_file s' = Some "cfg" ∧
    Events.popup_errors s' = ["error"].
Proof.
  destruct (connect_records_selection
              (λ _ _ x, (inl (Py.OSError "no probe"), x))
              (λ x, (inr (), x)) (λ x, (inr (), x)) (λ x, (inr None, x))
              (λ _ x, (inr (), x)) (λ _, "cfg") (λ _, "error")
              Events.writable (Events.Values "" "" "") Events.start_viewer)
    as (s' & Hs' & Hhist & _ & Hfile & _ & _ & _ & _ & Hpop).
  exists s'.
  split_and!; [exact Hs'|exact Hhist|exact (Hfile eq_refl eq_refl)|exact Hpop].
Defined.
